(** * SecureChat backend (backend/main.py): relay of encrypted messages

    A shallow embedding of the request handlers and of the
    [ConnectionManager] of [backend/main.py], and the properties of the
    delivery and session-management core that are checked against it.

    Modelling conventions.
    - The MySQL tables are lists of rows, in storage order; a [SELECT] is a
      filter / nested-loop join over them, an [UPDATE] a map, an [INSERT] an
      append.  The table declarations are not part of the source: the rows
      carry the columns the statements of the source name, and no uniqueness
      or referential constraint is modelled beyond the id counters that
      [cursor.lastrowid] exposes, the key of [users] whose violation
      [register_user] catches, and the reference of [reply_to_id] that the
      data model declares: the handlers are given on a store that accepts
      the row, and [send_message_referenced] adds the refusal of the store.
    - [manager.active_connections] is a finite map from user id to a socket
      handle.  Whether [send_json] on a socket raises is decided by the
      environment: [send_json_ok n ws] tells whether the [n]-th send attempt
      of the run, made on socket [ws], goes through.
    - Every handler is run to completion on the world it starts from, with
      no other coroutine in between; a statement takes effect where it is
      executed ([commit] and the closing of cursors and connections leave no
      trace); [NOW()] reads the world's clock [now].  Each attempt to send on
      a socket is recorded in the world's [wire], with its outcome. *)

From stdpp Require Import gmap strings list sorting pretty.

Set Default Proof Using "Type".

(** ** Rows of the tables *)

Record User := mkUser {
  u_user_id : string;
  u_public_key : string;
  u_encrypted_private_key : option string;
  u_display_name : option string;
  u_avatar : option string;
  u_is_online : bool;
  u_last_seen : option Z }.

Record Message := mkMessage {
  m_id : Z;
  m_sender_id : string;
  m_recipient_id : string;
  m_encrypted_content : string;
  m_encrypted_for_sender : string;
  m_reply_to_id : option Z;
  m_delete_mode : string;
  m_is_read : bool;
  m_created_at : Z }.

Record ChatGroup := mkChatGroup {
  g_group_id : string;
  g_name : string;
  g_created_by : string;
  g_avatar : option string }.

Record GroupMember := mkGroupMember {
  gm_group_id : string;
  gm_user_id : string;
  gm_encrypted_group_key : string }.

Record GroupMessage := mkGroupMessage {
  gmsg_id : Z;
  gmsg_group_id : string;
  gmsg_sender_id : string;
  gmsg_encrypted_content : string;
  gmsg_created_at : Z }.

(** Modelled from the spec: the table declarations are missing from the
    source.  Ids are "store-assigned, monotonically increasing, unique": each
    of the two message tables keeps the last id it handed out
    ([cursor.lastrowid]); [is_read] is "initially false" and [created_at] is
    "assigned at insertion". *)
Record DB := mkDB {
  users : list User;
  messages : list Message;
  messages_lastrowid : Z;
  blocked_users : list (string * string);
  chat_groups : list ChatGroup;
  group_members : list GroupMember;
  group_messages : list GroupMessage;
  group_messages_lastrowid : Z }.

(** ** Sockets and the events pushed on them *)

Definition WebSocket := nat.

Inductive Event :=
  | user_online (user_id : string)
  | user_offline (user_id : string)
  | new_message (message_id : Z) (sender_id encrypted_content : string)
  | group_added (group_id name : string)
  | group_message (group_id : string) (message_id : Z)
  | typing (sender_id : string)
  | messages_read (reader_id : string)
  | pong.

Global Instance Event_eq_dec : EqDecision Event.
Proof. solve_decision. Defined.

(** One [send_json] attempt: the user it was meant for, the socket it was
    made on, the payload, and whether it went through. *)
Record Delivery := mkDelivery {
  d_user : string;
  d_socket : WebSocket;
  d_event : Event;
  d_ok : bool }.

Global Instance Delivery_eq_dec : EqDecision Delivery.
Proof. solve_decision. Defined.

Record World := mkWorld {
  db : DB;
  active_connections : gmap string WebSocket;
  wire : list Delivery;
  now : Z }.

(** ** Request bodies and responses *)

Record MessageCreate := mkMessageCreate {
  mc_recipient_id : string;
  mc_encrypted_content : string;
  mc_encrypted_for_sender : string;
  mc_reply_to_id : option Z;
  mc_delete_mode : string }.

Record GroupCreate := mkGroupCreate {
  gc_name : string;
  gc_member_ids : list string;
  gc_encrypted_keys : gmap string string }.

Record GroupMessageCreate := mkGroupMessageCreate {
  gmc_encrypted_content : string }.

(** A handler either returns its JSON body or raises an [HTTPException]. *)
Inductive Response (A : Type) :=
  | Ok (body : A)
  | HTTPException (status_code : Z) (detail : string).
Arguments Ok {A} body.
Arguments HTTPException {A} status_code detail.

(** ** World updates *)

Definition with_db (d : DB) (w : World) : World :=
  mkWorld d (active_connections w) (wire w) (now w).

Definition with_connections (c : gmap string WebSocket) (w : World) : World :=
  mkWorld (db w) c (wire w) (now w).

Definition record_send (user_id : string) (ws : WebSocket) (message : Event)
    (ok : bool) (w : World) : World :=
  mkWorld (db w) (active_connections w)
          (wire w ++ [mkDelivery user_id ws message ok]) (now w).

Definition with_users (us : list User) (d : DB) : DB :=
  mkDB us (messages d) (messages_lastrowid d) (blocked_users d)
       (chat_groups d) (group_members d) (group_messages d)
       (group_messages_lastrowid d).

Definition with_messages (ms : list Message) (d : DB) : DB :=
  mkDB (users d) ms (messages_lastrowid d) (blocked_users d)
       (chat_groups d) (group_members d) (group_messages d)
       (group_messages_lastrowid d).

Definition with_blocked_users (bs : list (string * string)) (d : DB) : DB :=
  mkDB (users d) (messages d) (messages_lastrowid d) bs
       (chat_groups d) (group_members d) (group_messages d)
       (group_messages_lastrowid d).

Definition with_group_members (gms : list GroupMember) (d : DB) : DB :=
  mkDB (users d) (messages d) (messages_lastrowid d) (blocked_users d)
       (chat_groups d) gms (group_messages d) (group_messages_lastrowid d).

(** [UPDATE users SET is_online = .., last_seen = NOW() WHERE user_id = %s] *)
Definition set_online (flag : bool) (at_time : Z) (user_id : string)
    (us : list User) : list User :=
  (λ u, if decide (u_user_id u = user_id)
        then mkUser (u_user_id u) (u_public_key u) (u_encrypted_private_key u)
                    (u_display_name u) (u_avatar u) flag (Some at_time)
        else u) <$> us.

Definition update_status (flag : bool) (user_id : string) (w : World) : World :=
  with_db (with_users (set_online flag (now w) user_id (users (db w))) (db w)) w.

(** [SELECT DISTINCT CASE WHEN sender_id = %s THEN recipient_id ELSE sender_id END
     FROM messages WHERE sender_id = %s OR recipient_id = %s] *)
Definition contacts (user_id : string) (ms : list Message) : list string :=
  remove_dups
    ((λ m, if decide (m_sender_id m = user_id)
           then m_recipient_id m else m_sender_id m)
       <$> filter (λ m, m_sender_id m = user_id ∨ m_recipient_id m = user_id) ms).

(** A [for] loop whose body threads the world and may fail to return. *)
Fixpoint for_each {A : Type} (body : A → World → option World)
    (l : list A) (w : World) : option World :=
  match l with
  | [] => Some w
  | x :: l' => w' ← body x w; for_each body l' w'
  end.

(** ** ConnectionManager *)

Section manager.
(** [send_json_ok n ws]: the [n]-th send attempt, on socket [ws], does not
    raise. *)
Variable send_json_ok : nat → WebSocket → bool.

Definition status_event (user_id : string) (is_online : bool) : Event :=
  if is_online then user_online user_id else user_offline user_id.

(** [broadcast_status] and [disconnect], over the [send_to_user] they call. *)
Definition broadcast_status_with (send : string → Event → World → option World)
    (user_id : string) (is_online : bool) (w : World) : option World :=
  let message := status_event user_id is_online in
  let contact_ids := contacts user_id (messages (db w)) in
  for_each (λ contact_id, send contact_id message) contact_ids w.

(** [self.active_connections[user_id] = websocket] *)
Definition register (websocket : WebSocket) (user_id : string) (w : World)
    : World :=
  with_connections (<[user_id := websocket]> (active_connections w)) w.

(** [if user_id in self.active_connections: del self.active_connections[user_id]] *)
Definition unregister (user_id : string) (w : World) : World :=
  with_connections (delete user_id (active_connections w)) w.

(** The first two steps of [disconnect]. *)
Definition go_offline (user_id : string) (w : World) : World :=
  update_status false user_id (unregister user_id w).

Definition disconnect_with (send : string → Event → World → option World)
    (user_id : string) (w : World) : option World :=
  broadcast_status_with send user_id false (go_offline user_id w).

(** [send_to_user]; [fuel] bounds the depth of the nested [disconnect]
    calls made from the [except] branch. *)
Fixpoint send_to_user_fuel (fuel : nat) (user_id : string) (message : Event)
    (w : World) : option World :=
  match active_connections w !! user_id with
  | None => Some w
  | Some ws =>
      if send_json_ok (length (wire w)) ws
      then Some (record_send user_id ws message true w)
      else match fuel with
           | O => None
           | S fuel' =>
               disconnect_with (send_to_user_fuel fuel') user_id
                 (record_send user_id ws message false w)
           end
  end.

(** Every failed send removes a registered session, so the number of
    sessions bounds the nesting. *)
Definition send_to_user (user_id : string) (message : Event) (w : World)
    : option World :=
  send_to_user_fuel (size (active_connections w)) user_id message w.

Definition broadcast_status := broadcast_status_with send_to_user.

Definition disconnect := disconnect_with send_to_user.

Definition connect (websocket : WebSocket) (user_id : string) (w : World)
    : option World :=
  broadcast_status user_id true
    (update_status true user_id (register websocket user_id w)).

End manager.

(** ** Message endpoints *)

Definition blocked_error : string := "You are blocked by this user".
Definition group_not_found : string := "Group not found".

(** [SELECT 1 FROM blocked_users WHERE user_id = %s AND blocked_user_id = %s] *)
Definition select_blocked (user_id blocked_user_id : string) (d : DB)
    : list (string * string) :=
  filter (λ b, b.1 = user_id ∧ b.2 = blocked_user_id) (blocked_users d).

(** [INSERT INTO messages (...) VALUES (...)]: the row gets the next id,
    [is_read = FALSE] and the insertion time. *)
Definition insert_message (sender_id : string) (message : MessageCreate)
    (at_time : Z) (d : DB) : DB :=
  let message_id := (messages_lastrowid d + 1)%Z in
  mkDB (users d)
       (messages d ++
          [mkMessage message_id sender_id (mc_recipient_id message)
                     (mc_encrypted_content message)
                     (mc_encrypted_for_sender message)
                     (mc_reply_to_id message) (mc_delete_mode message)
                     false at_time])
       message_id (blocked_users d) (chat_groups d) (group_members d)
       (group_messages d) (group_messages_lastrowid d).

(** A row of [get_messages]: [m.*] and the three columns of the joined reply
    target, [NULL] when the left join finds none. *)
Record MessageRow := mkMessageRow {
  r_message : Message;
  r_reply_encrypted_content : option string;
  r_reply_encrypted_for_sender : option string;
  r_reply_sender_id : option string }.

(** [messages m LEFT JOIN messages r ON m.reply_to_id = r.id], for one [m]. *)
Definition left_join_reply (ms : list Message) (m : Message) : list MessageRow :=
  match filter (λ r, m_reply_to_id m = Some (m_id r)) ms with
  | [] => [mkMessageRow m None None None]
  | rs => (λ r, mkMessageRow m (Some (m_encrypted_content r))
                             (Some (m_encrypted_for_sender r))
                             (Some (m_sender_id r))) <$> rs
  end.

Definition between (a b : string) (m : Message) : Prop :=
  (m_sender_id m = a ∧ m_recipient_id m = b) ∨
  (m_sender_id m = b ∧ m_recipient_id m = a).

Global Instance between_dec a b m : Decision (between a b m).
Proof. unfold between. apply _. Defined.

Definition created_le (x y : MessageRow) : Prop :=
  (m_created_at (r_message x) ≤ m_created_at (r_message y))%Z.

Global Instance created_le_dec x y : Decision (created_le x y).
Proof. unfold created_le. apply _. Defined.

(** The query of [get_messages], [ORDER BY m.created_at ASC]. *)
Definition select_conversation (user_id contact_id : string) (d : DB)
    : list MessageRow :=
  merge_sort created_le
    (filter (λ row, between user_id contact_id (r_message row))
       (messages d ≫= left_join_reply (messages d))).

(** [UPDATE messages SET is_read = TRUE
     WHERE sender_id = %s AND recipient_id = %s AND is_read = FALSE] *)
Definition mark_read (sender_id recipient_id : string) (ms : list Message)
    : list Message :=
  (λ m, if decide (m_sender_id m = sender_id ∧ m_recipient_id m = recipient_id
                   ∧ m_is_read m = false)
        then mkMessage (m_id m) (m_sender_id m) (m_recipient_id m)
                       (m_encrypted_content m) (m_encrypted_for_sender m)
                       (m_reply_to_id m) (m_delete_mode m) true (m_created_at m)
        else m) <$> ms.

(** The store operation of the [read] event, on the whole store. *)
Definition markRead (sender_id recipient_id : string) (d : DB) : DB :=
  with_messages (mark_read sender_id recipient_id (messages d)) d.

(** ** Group endpoints *)

Definition insert_chat_group (group_id name created_by : string) (d : DB) : DB :=
  mkDB (users d) (messages d) (messages_lastrowid d) (blocked_users d)
       (chat_groups d ++ [mkChatGroup group_id name created_by None])
       (group_members d) (group_messages d) (group_messages_lastrowid d).

Definition insert_group_member (group_id user_id key : string) (d : DB) : DB :=
  with_group_members
    (group_members d ++ [mkGroupMember group_id user_id key]) d.

Definition insert_group_message (group_id sender_id content : string)
    (at_time : Z) (d : DB) : DB :=
  let message_id := (group_messages_lastrowid d + 1)%Z in
  mkDB (users d) (messages d) (messages_lastrowid d) (blocked_users d)
       (chat_groups d) (group_members d)
       (group_messages d ++
          [mkGroupMessage message_id group_id sender_id content at_time])
       message_id.

Definition member_count (group_id : string) (d : DB) : nat :=
  length (filter (λ gm, gm_group_id gm = group_id) (group_members d)).

Record GroupSummary := mkGroupSummary {
  gs_group_id : string;
  gs_name : string;
  gs_avatar : option string;
  gs_member_count : nat }.

(** [SELECT g.group_id, g.name, g.avatar, (SELECT COUNT ...)
     FROM chat_groups g JOIN group_members gm ON g.group_id = gm.group_id
     WHERE gm.user_id = %s] *)
Definition get_groups (user_id : string) (w : World) : list GroupSummary :=
  g ← chat_groups (db w);
  gm ← group_members (db w);
  if decide (g_group_id g = gm_group_id gm ∧ gm_user_id gm = user_id)
  then [mkGroupSummary (g_group_id g) (g_name g) (g_avatar g)
                       (member_count (g_group_id g) (db w))]
  else [].

Record GroupDetail := mkGroupDetail {
  gd_group : ChatGroup;
  gd_encrypted_group_key : string;
  gd_member_count : nat }.

Definition select_group (group_id user_id : string) (d : DB) : list GroupDetail :=
  g ← chat_groups d;
  gm ← group_members d;
  if decide ((g_group_id g = gm_group_id gm ∧ gm_user_id gm = user_id)
             ∧ g_group_id g = group_id)
  then [mkGroupDetail g (gm_encrypted_group_key gm) (member_count (g_group_id g) d)]
  else [].

Definition get_group (group_id user_id : string) (w : World)
    : Response GroupDetail :=
  match select_group group_id user_id (db w) with
  | [] => HTTPException 404 group_not_found
  | group :: _ => Ok group
  end.

(** A row of [get_group_messages]: [gm.*] and the sender's display name. *)
Record GroupMessageRow := mkGroupMessageRow {
  gr_message : GroupMessage;
  gr_sender_name : option string }.

Definition group_created_le (x y : GroupMessageRow) : Prop :=
  (gmsg_created_at (gr_message x) ≤ gmsg_created_at (gr_message y))%Z.

Global Instance group_created_le_dec x y : Decision (group_created_le x y).
Proof. unfold group_created_le. apply _. Defined.

(** [SELECT gm.*, u.display_name as sender_name FROM group_messages gm
     JOIN users u ON gm.sender_id = u.user_id
     WHERE gm.group_id = %s ORDER BY gm.created_at ASC] *)
Definition select_group_messages (group_id : string) (d : DB)
    : list GroupMessageRow :=
  merge_sort group_created_le
    (gm ← group_messages d;
     u ← users d;
     if decide (gmsg_sender_id gm = u_user_id u ∧ gmsg_group_id gm = group_id)
     then [mkGroupMessageRow gm (u_display_name u)]
     else []).

(** [SELECT user_id FROM group_members WHERE group_id = %s AND user_id != %s] *)
Definition members_except (group_id user_id : string) (d : DB) : list string :=
  gm_user_id <$>
    filter (λ gm, gm_group_id gm = group_id ∧ gm_user_id gm ≠ user_id)
           (group_members d).

Section handlers.
Variable send_json_ok : nat → WebSocket → bool.
(** [datetime.isoformat] *)
Variable isoformat : Z → string.

Definition send_message (message : MessageCreate) (sender_id : string)
    (w : World) : option (World * Response Z) :=
  match select_blocked (mc_recipient_id message) sender_id (db w) with
  | _ :: _ => Some (w, HTTPException 403 blocked_error)
  | [] =>
      let w1 := with_db (insert_message sender_id message (now w) (db w)) w in
      let message_id := messages_lastrowid (db w1) in
      w2 ← send_to_user send_json_ok (mc_recipient_id message)
             (new_message message_id sender_id (mc_encrypted_content message))
             w1;
      Some (w2, Ok message_id)
  end.

(** The rows as returned: the [created_at] key of each row is overwritten
    with its ISO rendering, kept here next to the row it belongs to. *)
Definition get_messages (contact_id user_id : string) (w : World)
    : list (MessageRow * string) :=
  (λ msg, (msg, isoformat (m_created_at (r_message msg)))) <$>
    select_conversation user_id contact_id (db w).

(** [create_group]; [group_id] is the token [uuid.uuid4()] returned. *)
Definition create_group (group : GroupCreate) (user_id : string)
    (group_id : string) (w : World) : option (World * Response string) :=
  let d1 := insert_chat_group group_id (gc_name group) user_id (db w) in
  let d2 := match gc_encrypted_keys group !! user_id with
            | Some key => insert_group_member group_id user_id key d1
            | None => d1
            end in
  w' ← for_each
         (λ member_id w,
            match gc_encrypted_keys group !! member_id with
            | Some key =>
                if decide (member_id ≠ user_id)
                then send_to_user send_json_ok member_id
                       (group_added group_id (gc_name group))
                       (with_db (insert_group_member group_id member_id key (db w)) w)
                else Some w
            | None => Some w
            end)
         (gc_member_ids group) (with_db d2 w);
  Some (w', Ok group_id).

Definition send_group_message (group_id : string)
    (message : GroupMessageCreate) (user_id : string) (w : World)
    : option (World * Response Z) :=
  let w1 := with_db (insert_group_message group_id user_id
                       (gmc_encrypted_content message) (now w) (db w)) w in
  let message_id := group_messages_lastrowid (db w1) in
  let members := members_except group_id user_id (db w1) in
  w2 ← for_each
         (λ member_id, send_to_user send_json_ok member_id
                         (group_message group_id message_id))
         members w1;
  Some (w2, Ok message_id).

Definition get_group_messages (group_id user_id : string) (w : World)
    : list (GroupMessageRow * string) :=
  (λ msg, (msg, isoformat (gmsg_created_at (gr_message msg)))) <$>
    select_group_messages group_id (db w).

(** ** WebSocket endpoint: the [typing] and [read] events of a session *)

(** [if recipient_id:] / [if sender_id:] hold for a non-empty string. *)
Definition truthy (s : option string) : option string :=
  match s with
  | Some x => if decide (x = "") then None else Some x
  | None => None
  end.

Definition on_typing (recipient_id : option string) (user_id : string)
    (w : World) : option World :=
  match truthy recipient_id with
  | Some recipient_id => send_to_user send_json_ok recipient_id (typing user_id) w
  | None => Some w
  end.

Definition on_read (sender_id : option string) (user_id : string)
    (w : World) : option World :=
  match truthy sender_id with
  | Some sender_id =>
      send_to_user send_json_ok sender_id (messages_read user_id)
        (with_db (markRead sender_id user_id (db w)) w)
  | None => Some w
  end.

End handlers.

(** * Vocabulary of the properties *)

(** Number of attempts to push [message] to [user_id] among [sent], and
    number of those that went through. *)
Definition attempts (user_id : string) (message : Event) (sent : list Delivery)
    : nat :=
  length (filter (λ d, d_user d = user_id ∧ d_event d = message) sent).

Definition deliveries (user_id : string) (message : Event)
    (sent : list Delivery) : nat :=
  length (filter (λ d, d_user d = user_id ∧ d_event d = message ∧ d_ok d = true)
                 sent).

(** [contact_id] is the other end of some direct-message row of [user_id]. *)
Definition counterpart (user_id contact_id : string) (ms : list Message) : Prop :=
  ∃ m, m ∈ ms ∧ ((m_sender_id m = user_id ∧ m_recipient_id m = contact_id)
                 ∨ (m_recipient_id m = user_id ∧ m_sender_id m = contact_id)).

Section vocabulary.
Variable send_json_ok : nat → WebSocket → bool.

(** What a single [send_to_user] can do to the world at its own level: the
    send goes through, or it raises and the session is unregistered. *)
Inductive push_step : World → World → Prop :=
  | push_delivered w user_id ws message :
      active_connections w !! user_id = Some ws →
      send_json_ok (length (wire w)) ws = true →
      push_step w (record_send user_id ws message true w)
  | push_dropped w user_id ws message :
      active_connections w !! user_id = Some ws →
      send_json_ok (length (wire w)) ws = false →
      push_step w (go_offline user_id (record_send user_id ws message false w)).

Definition cascade : relation World := rtc push_step.

(** Everything of the store but the [users] table. *)
Definition tables (d : DB) : DB := with_users [] d.

(** The columns of [users] that no status update writes. *)
Definition profile (u : User)
    : string * string * option string * option string * option string :=
  (u_user_id u, u_public_key u, u_encrypted_private_key u, u_display_name u,
   u_avatar u).

(** A socket that never raises. *)
Definition reliable (ws : WebSocket) : Prop := ∀ n, send_json_ok n ws = true.

(** What a cascade leaves alone, and what it may do: sessions only go, each
    send is made on the socket registered for its user, and a session goes
    only after a send to it has raised. *)
Record frame (w w' : World) : Prop := mkFrame {
  frame_tables : tables (db w') = tables (db w);
  frame_profiles : profile <$> users (db w') = profile <$> users (db w);
  frame_now : now w' = now w;
  frame_connections : active_connections w' ⊆ active_connections w;
  frame_reliable : ∀ user_id ws,
    active_connections w !! user_id = Some ws → reliable ws →
    active_connections w' !! user_id = Some ws;
  frame_offline : ∀ user_id,
    Forall (λ u, u_user_id u = user_id → u_is_online u = false) (users (db w)) →
    Forall (λ u, u_user_id u = user_id → u_is_online u = false) (users (db w'));
  frame_wire : ∃ sent, wire w' = wire w ++ sent ∧
    Forall (λ d, active_connections w !! d_user d = Some (d_socket d)) sent ∧
    ∀ user_id, is_Some (active_connections w !! user_id) →
               active_connections w' !! user_id = None →
               ∃ d, d ∈ sent ∧ d_user d = user_id ∧ d_ok d = false }.

(** The user has a registered session whose socket never raises. *)
Definition live_session (connections : gmap string WebSocket) (user_id : string)
    : Prop :=
  ∃ ws, connections !! user_id = Some ws ∧ reliable ws.

(** The payload of [d] is the offline notice of a user registered in [w]. *)
Definition offline_notice (w : World) (d : Delivery) : Prop :=
  ∃ user_id, d_event d = user_offline user_id
             ∧ is_Some (active_connections w !! user_id).

(** What one call of [send_to_user user_id message] puts on the wire: nothing
    for a user without session; else one attempt on the registered socket,
    followed, when it raised, by offline notices only. *)
Definition push_trace (user_id : string) (message : Event) (w w' : World) : Prop :=
  match active_connections w !! user_id with
  | None => w' = w
  | Some ws =>
      let ok := send_json_ok (length (wire w)) ws in
      ∃ sent, wire w' = wire w ++ mkDelivery user_id ws message ok :: sent
              ∧ (ok = true → sent = [])
              ∧ Forall (offline_notice w) sent
  end.

Definition push_spec (send : string → Event → World → option World) : Prop :=
  ∀ user_id message w w',
    send user_id message w = Some w' →
    cascade w w' ∧ push_trace user_id message w w'.

(** [event] is not the offline notice of a user registered in [connections]. *)
Definition foreign (connections : gmap string WebSocket) (event : Event) : Prop :=
  ∀ user_id, event = user_offline user_id → connections !! user_id = None.

(** What a status broadcast for [user_id], started with the sessions
    [connections], added to the wire: one attempt, delivered, for every
    counterpart with a live session; nothing at all for a user without
    session; no status event for a user who is no counterpart; never more
    than one attempt for anyone; and one attempt for every counterpart with
    a session, unless a send to it has raised during the broadcast. *)
Definition presence_report (connections : gmap string WebSocket)
    (user_id : string) (event : Event) (ms : list Message)
    (before after : list Delivery) : Prop :=
  ∃ sent, after = before ++ sent ∧
    ∀ contact_id,
      (counterpart user_id contact_id ms → live_session connections contact_id →
       attempts contact_id event sent = 1 ∧ deliveries contact_id event sent = 1)
      ∧ (connections !! contact_id = None →
         Forall (λ d, d_user d ≠ contact_id) sent)
      ∧ (¬ counterpart user_id contact_id ms → attempts contact_id event sent = 0)
      ∧ attempts contact_id event sent ≤ 1
      ∧ (counterpart user_id contact_id ms → is_Some (connections !! contact_id) →
         attempts contact_id event sent = 1
         ∨ ∃ d, d ∈ sent ∧ d_user d = contact_id ∧ d_ok d = false).

(** What the server may do while [user_id] does not connect again: push to
    anyone, disconnect anyone, connect anyone else, write to the store. *)
Inductive session_step (user_id : string) : World → World → Prop :=
  | step_push target message w w' :
      send_to_user send_json_ok target message w = Some w' →
      session_step user_id w w'
  | step_disconnect other w w' :
      disconnect send_json_ok other w = Some w' →
      session_step user_id w w'
  | step_connect websocket other w w' :
      other ≠ user_id →
      connect send_json_ok websocket other w = Some w' →
      session_step user_id w w'
  | step_store d w :
      session_step user_id w (with_db d w).

End vocabulary.

(** The world with another [blocked_users] table. *)
Definition set_blocked (bs : list (string * string)) (w : World) : World :=
  with_db (with_blocked_users bs (db w)) w.

(** The row that [send_message] inserts. *)
Definition sent_row (message : MessageCreate) (sender_id : string) (w : World)
    : Message :=
  mkMessage (messages_lastrowid (db w) + 1) sender_id (mc_recipient_id message)
            (mc_encrypted_content message) (mc_encrypted_for_sender message)
            (mc_reply_to_id message) (mc_delete_mode message) false (now w).

(** [reply_to_id] is absent or the id of a row of [ms]. *)
Definition reply_resolves (ms : list Message) (reply_to_id : option Z) : Prop :=
  match reply_to_id with
  | None => True
  | Some i => i ∈ m_id <$> ms
  end.

Global Instance reply_resolves_dec ms reply_to_id :
  Decision (reply_resolves ms reply_to_id).
Proof. destruct reply_to_id; simpl; apply _. Defined.

(** The ids of [messages] are distinct and none is past the counter: what
    an auto-increment key keeps. *)
Definition ids_fresh (d : DB) : Prop :=
  NoDup (m_id <$> messages d)
  ∧ Forall (λ m, (m_id m ≤ messages_lastrowid d)%Z) (messages d).

(** [m] with [is_read = TRUE]. *)
Definition as_read (m : Message) : Message :=
  mkMessage (m_id m) (m_sender_id m) (m_recipient_id m) (m_encrypted_content m)
            (m_encrypted_for_sender m) (m_reply_to_id m) (m_delete_mode m)
            true (m_created_at m).

(** [m] is an unread row from [sender_id] to [recipient_id]. *)
Definition unread_from (sender_id recipient_id : string) (m : Message) : Prop :=
  m_sender_id m = sender_id ∧ m_recipient_id m = recipient_id
  ∧ m_is_read m = false.

(** The ids with a membership row in the group. *)
Definition members_of (group_id : string) (d : DB) : gset string :=
  list_to_set
    (gm_user_id <$> filter (λ gm, gm_group_id gm = group_id) (group_members d)).

(** The membership rows that [create_group] inserts, in order: the creator's,
    then one for every listed member with a key who is not the creator. *)
Definition new_member_rows (group : GroupCreate) (user_id group_id : string)
    (member_ids : list string) : list GroupMember :=
  omap (λ member_id,
          key ← gc_encrypted_keys group !! member_id;
          if decide (member_id ≠ user_id)
          then Some (mkGroupMember group_id member_id key) else None)
       member_ids.

Definition creator_row (group : GroupCreate) (user_id group_id : string)
    : list GroupMember :=
  match gc_encrypted_keys group !! user_id with
  | Some key => [mkGroupMember group_id user_id key]
  | None => []
  end.

(** The row that [send_group_message] inserts. *)
Definition sent_group_row (group_id : string) (message : GroupMessageCreate)
    (user_id : string) (w : World) : GroupMessage :=
  mkGroupMessage (group_messages_lastrowid (db w) + 1) group_id user_id
                 (gmc_encrypted_content message) (now w).

(** The sender of [gm] has a row in [users]. *)
Definition sender_registered (d : DB) (gm : GroupMessage) : Prop :=
  ∃ u, u ∈ users d ∧ u_user_id u = gmsg_sender_id gm.

(** * Sample worlds

    Three registered users; alice and bob have exchanged messages, carol has
    written to alice; bob blocks carol; alice and bob are connected, on the
    sockets 1 and 2. *)

Definition alice : User := mkUser "alice" "pkA" None (Some "Alice") None true (Some 90%Z).
Definition bob : User := mkUser "bob" "pkB" None (Some "Bob") None true (Some 95%Z).
Definition carol : User := mkUser "carol" "pkC" None None None false None.

Definition sample_messages : list Message :=
  [ mkMessage 1 "alice" "bob" "hi-for-bob" "hi-for-alice" None "never" true 10;
    mkMessage 2 "bob" "alice" "re-for-alice" "re-for-bob" (Some 1%Z) "never" false 30;
    mkMessage 3 "carol" "alice" "yo-for-alice" "yo-for-carol" None "never" false 20 ].

Definition sample_db : DB :=
  mkDB [alice; bob; carol] sample_messages 3 [("bob", "carol")]
       [mkChatGroup "g1" "friends" "alice" None]
       [mkGroupMember "g1" "alice" "key-for-alice"] [] 0.

Definition sample_world : World :=
  mkWorld sample_db (<["alice" := 1]> (<["bob" := 2]> ∅)) [] 100.

(** Every send goes through. *)
Definition always_ok : nat → WebSocket → bool := λ _ _, true.

(** The sockets of [dead] raise on every send. *)
Definition dead_sockets (dead : list WebSocket) : nat → WebSocket → bool :=
  λ _ ws, bool_decide (ws ∉ dead).

Definition sample_isoformat (t : Z) : string := pretty t.

Definition hello_bob : MessageCreate :=
  mkMessageCreate "bob" "yo-for-bob" "yo-for-me" None "never".

Definition dangling_reply : MessageCreate :=
  mkMessageCreate "bob" "re-for-bob" "re-for-alice" (Some 999%Z) "never".

Definition good_reply : MessageCreate :=
  mkMessageCreate "bob" "re-for-bob" "re-for-alice" (Some 2%Z) "never".

Definition hello_carol : MessageCreate :=
  mkMessageCreate "carol" "hi-for-carol" "hi-for-bob" None "never".

Definition sample_group : GroupCreate :=
  mkGroupCreate "trio" ["bob"; "carol"]
    (<["alice" := "k-alice"]> (<["bob" := "k-bob"]> ∅)).

(** * The rest of the endpoints *)

(** ** User endpoints *)

Record UserRegister := mkUserRegister {
  ur_user_id : string;
  ur_public_key : string;
  ur_display_name : option string;
  ur_encrypted_private_key : option string }.

Record UserUpdate := mkUserUpdate {
  uu_display_name : option string;
  uu_avatar : option string }.

(** The columns [get_user] selects. *)
Record UserPublic := mkUserPublic {
  up_user_id : string;
  up_public_key : string;
  up_display_name : option string;
  up_avatar : option string }.

Definition user_already_exists : string := "User already exists".
Definition user_not_found : string := "User not found".

(** [SELECT ... FROM users WHERE user_id = %s] *)
Definition select_user (user_id : string) (d : DB) : list User :=
  filter (λ u, u_user_id u = user_id) (users d).

(** Modelled from the spec: the declaration of [users] is missing from the
    source.  The [IntegrityError] that the handler turns into its 400
    "User already exists" is the "duplicate identity on registration" of the
    "store's insertion constraint": the [INSERT] raises when a row with the
    [user_id] exists.  The columns the statement does not give ([avatar],
    [is_online], [last_seen]) start out empty, offline and never seen. *)
Definition register_user (user : UserRegister) (w : World)
    : World * Response string :=
  match select_user (ur_user_id user) (db w) with
  | _ :: _ => (w, HTTPException 400 user_already_exists)
  | [] =>
      (with_db (with_users
                  (users (db w) ++
                     [mkUser (ur_user_id user) (ur_public_key user)
                             (ur_encrypted_private_key user)
                             (ur_display_name user) None false None])
                  (db w)) w,
       Ok (ur_user_id user))
  end.

Definition get_user (user_id : string) (w : World) : Response UserPublic :=
  match select_user user_id (db w) with
  | [] => HTTPException 404 user_not_found
  | u :: _ => Ok (mkUserPublic (u_user_id u) (u_public_key u)
                               (u_display_name u) (u_avatar u))
  end.

Definition check_user_exists (user_id : string) (w : World) : bool :=
  match select_user user_id (db w) with
  | [] => false
  | _ :: _ => true
  end.

(** [value if value else None]: the empty string is stored as [NULL]. *)
Definition or_null (value : string) : option string :=
  if decide (value = "") then None else Some value.

(** The [SET] list that [update_user] builds, applied to one row: a field
    that is [None] in the request is not in the list. *)
Definition apply_update (update : UserUpdate) (u : User) : User :=
  mkUser (u_user_id u) (u_public_key u) (u_encrypted_private_key u)
         (match uu_display_name update with
          | Some value => or_null value
          | None => u_display_name u
          end)
         (match uu_avatar update with
          | Some value => or_null value
          | None => u_avatar u
          end)
         (u_is_online u) (u_last_seen u).

(** [update_user]: no statement is run when the [SET] list is empty; the
    handler returns [{"status": "ok"}] in every case. *)
Definition update_user (user_id : string) (update : UserUpdate) (w : World)
    : World :=
  match uu_display_name update, uu_avatar update with
  | None, None => w
  | _, _ =>
      with_db (with_users
                 ((λ u, if decide (u_user_id u = user_id)
                        then apply_update update u else u) <$> users (db w))
                 (db w)) w
  end.

(** ** Conversations *)

(** [DELETE FROM messages WHERE (sender_id = %s AND recipient_id = %s)
     OR (sender_id = %s AND recipient_id = %s)] *)
Definition delete_messages (contact_id user_id : string) (w : World) : World :=
  with_db (with_messages
             (filter (λ m, ¬ between user_id contact_id m) (messages (db w)))
             (db w)) w.

(** A row of the [nicknames] table, which no handler of the source writes:
    the table is an argument of [get_conversations]. *)
Record Nickname := mkNickname {
  n_user_id : string;
  n_contact_id : string;
  n_nickname : option string }.

Record ConversationRow := mkConversationRow {
  c_user_id : string;
  c_display_name : option string;
  c_avatar : option string;
  c_is_online : bool;
  c_nickname : option string;
  c_unread_count : nat;
  c_last_message_at : option Z }.

(** [SELECT COUNT( * ) FROM messages
     WHERE sender_id = u.user_id AND recipient_id = %s AND is_read = FALSE] *)
Definition unread_count (contact_id user_id : string) (ms : list Message) : nat :=
  length (filter (unread_from contact_id user_id) ms).

(** [MAX] of a column, [NULL] over no row. *)
Definition sql_max (ts : list Z) : option Z :=
  foldr (λ t acc, Some (match acc with Some t' => Z.max t t' | None => t end))
        None ts.

(** [SELECT MAX(created_at) FROM messages WHERE
     (sender_id = %s AND recipient_id = u.user_id)
     OR (sender_id = u.user_id AND recipient_id = %s)] *)
Definition last_message_at (user_id contact_id : string) (ms : list Message)
    : option Z :=
  sql_max (m_created_at <$> filter (between user_id contact_id) ms).

(** [users u LEFT JOIN nicknames n
     ON n.user_id = %s AND n.contact_id = u.user_id], for one [u]. *)
Definition left_join_nickname (nicknames : list Nickname) (user_id : string)
    (ms : list Message) (u : User) : list ConversationRow :=
  let row nickname :=
    mkConversationRow (u_user_id u) (u_display_name u) (u_avatar u)
                      (u_is_online u) nickname
                      (unread_count (u_user_id u) user_id ms)
                      (last_message_at user_id (u_user_id u) ms) in
  match filter (λ n, n_user_id n = user_id ∧ n_contact_id n = u_user_id u)
               nicknames with
  | [] => [row None]
  | ns => (λ n, row (n_nickname n)) <$> ns
  end.

(** The order of timestamps with [NULL] below every value. *)
Definition null_le (x y : option Z) : Prop :=
  match x, y with
  | None, _ => True
  | Some _, None => False
  | Some a, Some b => (a ≤ b)%Z
  end.

Global Instance null_le_dec x y : Decision (null_le x y).
Proof. destruct x, y; simpl; apply _. Defined.

(** [ORDER BY last_message_at DESC] *)
Definition latest_first (x y : ConversationRow) : Prop :=
  null_le (c_last_message_at y) (c_last_message_at x).

Global Instance latest_first_dec x y : Decision (latest_first x y).
Proof. unfold latest_first. apply _. Defined.

Definition select_conversations (nicknames : list Nickname) (user_id : string)
    (d : DB) : list ConversationRow :=
  merge_sort latest_first
    (filter (λ row, c_user_id row ∈ contacts user_id (messages d))
       (users d ≫= left_join_nickname nicknames user_id (messages d))).

(** [get_conversations]: [last_message_at] is overwritten with its ISO
    rendering where it is not [NULL]. *)
Definition get_conversations (isoformat : Z → string)
    (nicknames : list Nickname) (user_id : string) (w : World)
    : list (ConversationRow * option string) :=
  (λ conv, (conv, isoformat <$> c_last_message_at conv)) <$>
    select_conversations nicknames user_id (db w).

(** ** Vocabulary of the further properties *)

(** The user ids of [users] are distinct: what the key behind
    [register_user]'s [IntegrityError] keeps. *)
Definition users_unique (d : DB) : Prop := NoDup (u_user_id <$> users d).

(** Some row of [users] has the id. *)
Definition registered (d : DB) (user_id : string) : Prop :=
  user_id ∈ u_user_id <$> users d.

(** The payloads that a direct-message send may push: the notification of
    the message, or offline notices of sessions found dead. *)
Definition send_payload (event : Event) (e : Event) : Prop :=
  e = event ∨ ∃ user_id, e = user_offline user_id.

(** Further sample requests. *)

Definition dave_registers : UserRegister :=
  mkUserRegister "dave" "pkD" (Some "Dave") None.

Definition dave_again : UserRegister :=
  mkUserRegister "dave" "pkX" (Some "Mallory") None.

Definition sample_nicknames : list Nickname :=
  [mkNickname "alice" "bob" (Some "Bobby")].

(** The sample world with a message of carol to alice that answers alice's
    first message to bob. *)
Definition first_hello : Message :=
  mkMessage 1 "alice" "bob" "hi-for-bob" "hi-for-alice" None "never" true 10.

Definition cross_reply : Message :=
  mkMessage 4 "carol" "alice" "fwd-for-alice" "fwd-for-carol" (Some 1%Z)
            "never" false 40.

Definition cross_reply_world : World :=
  mkWorld (with_messages (sample_messages ++ [cross_reply]) sample_db)
          (<["alice" := 1]> (<["bob" := 2]> ∅)) [] 100.

(** The sample world with bob, too, a member of the group g1. *)
Definition two_member_world : World :=
  mkWorld (with_group_members
             [mkGroupMember "g1" "alice" "key-for-alice";
              mkGroupMember "g1" "bob" "key-for-bob"] sample_db)
          (<["alice" := 1]> (<["bob" := 2]> ∅)) [] 100.

(** ** The reference of [reply_to_id] *)

(** Modelled from the spec: the declaration of [messages] is missing from
    the source.  "optional reply_to_id (must reference an existing message
    id or be absent)": the column refers to the ids of the table, and the
    store refuses, with [IntegrityError], an [INSERT] whose [reply_to_id] is
    present and the id of no row. *)
Definition reply_reference (reply_to_id : option Z) (d : DB) : bool :=
  bool_decide (reply_resolves (messages d) reply_to_id).

(** How a request ends: with the handler's response, or with the exception
    of the store, which no handler but [register_user] catches. *)
Inductive Outcome (A : Type) :=
  | Responded (response : Response A)
  | IntegrityError.
Arguments Responded {A} response.
Arguments IntegrityError {A}.

Section referenced_store.
Variable send_json_ok : nat → WebSocket → bool.

(** [send_message] on the store that declares the reference.  The handler
    has no [except] clause: the [IntegrityError] of [cursor.execute] leaves
    it before [conn.commit()] and before the push, so nothing is stored and
    nothing is sent. *)
Definition send_message_referenced (message : MessageCreate)
    (sender_id : string) (w : World) : option (World * Outcome Z) :=
  match select_blocked (mc_recipient_id message) sender_id (db w) with
  | _ :: _ => Some (w, Responded (HTTPException 403 blocked_error))
  | [] =>
      if reply_reference (mc_reply_to_id message) (db w) then
        let w1 := with_db (insert_message sender_id message (now w) (db w)) w in
        let message_id := messages_lastrowid (db w1) in
        w2 ← send_to_user send_json_ok (mc_recipient_id message)
               (new_message message_id sender_id (mc_encrypted_content message))
               w1;
        Some (w2, Responded (Ok message_id))
      else Some (w, IntegrityError)
  end.

End referenced_store.
(** * Properties *)

(** ** Loops *)

Section for_each.
Context {A : Type}.
Implicit Types (body : A → World → option World) (l : list A).

(** A loop whose body keeps an invariant and relates its two ends by a
    preorder relates the two ends of the loop. *)
Lemma for_each_invariant body (I : World → Prop) (R : relation World)
    `{!Reflexive R, !Transitive R} l w w' :
  (∀ x v v', x ∈ l → I v → body x v = Some v' → I v' ∧ R v v') →
  I w → for_each body l w = Some w' → I w' ∧ R w w'.
Proof.
  revert w. induction l as [|x l IH]; intros w Hbody Hw Hrun; simpl in Hrun.
  - by simplify_eq.
  - destruct (body x w) as [v|] eqn:Hx; simplify_eq/=.
    destruct (Hbody x w v) as [Hv Hwv]; [by left|done..|].
    destruct (IH v) as [Hw' Hvw']; [|done..|].
    + intros y u u' Hy. apply Hbody. by right.
    + split; [done|]. by transitivity v.
Qed.

(** A loop whose body returns on every world of the invariant returns. *)
Lemma for_each_total body (I : World → Prop) l w :
  (∀ x v, x ∈ l → I v → ∃ v', body x v = Some v' ∧ I v') →
  I w → ∃ w', for_each body l w = Some w' ∧ I w'.
Proof.
  revert w. induction l as [|x l IH]; intros w Hbody Hw; simpl.
  - eauto.
  - destruct (Hbody x w) as (v & -> & Hv); [by left|done|]. simpl.
    apply IH; [|done]. intros y u Hy. apply Hbody. by right.
Qed.

(** Two bodies that agree on the worlds of an invariant give the same loop. *)
Lemma for_each_ext body1 body2 (I : World → Prop) l w :
  (∀ x v, x ∈ l → I v → body1 x v = body2 x v) →
  (∀ x v v', x ∈ l → I v → body1 x v = Some v' → I v') →
  I w → for_each body1 l w = for_each body2 l w.
Proof.
  revert w. induction l as [|x l IH]; intros w Heq Hinv Hw; simpl; [done|].
  rewrite <-Heq by (done || by left).
  destruct (body1 x w) as [v|] eqn:Hx; simpl; [|done].
  apply IH.
  - intros y u Hy. apply Heq. by right.
  - intros y u u' Hy. apply Hinv. by right.
  - eapply Hinv; [|done..]. by left.
Qed.
End for_each.

(** ** The cascade started by a push *)

Section cascade.
Variable send_json_ok : nat → WebSocket → bool.

Lemma set_online_profile flag t user_id us :
  profile <$> set_online flag t user_id us = profile <$> us.
Proof.
  unfold set_online. rewrite <-list_fmap_compose. apply list_fmap_ext.
  intros i u _. simpl. by case_decide.
Qed.

Global Instance frame_refl : Reflexive (frame send_json_ok).
Proof.
  intros w. split; try done. exists []. rewrite app_nil_r. split; [done|].
  split; [done|]. intros u [ws Hu] Hnone. congruence.
Qed.

Global Instance frame_trans : Transitive (frame send_json_ok).
Proof.
  intros w1 w2 w3 [T1 P1 N1 C1 R1 O1 (s1 & W1 & F1 & D1)]
                  [T2 P2 N2 C2 R2 O2 (s2 & W2 & F2 & D2)].
  split.
  - congruence.
  - congruence.
  - congruence.
  - by transitivity (active_connections w2).
  - eauto.
  - eauto.
  - exists (s1 ++ s2). split; [by rewrite W2, W1, app_assoc|]. split.
    + apply Forall_app. split; [done|].
      eapply Forall_impl; [done|]. intros d Hd. simpl in *.
      by eapply lookup_weaken.
    + intros u Hu Hnone.
      destruct (active_connections w2 !! u) as [ws|] eqn:Hmid.
      * destruct (D2 u) as (d & Hd & ?); [by rewrite Hmid|done|].
        exists d. split; [|done]. apply elem_of_app. by right.
      * destruct (D1 u Hu Hmid) as (d & Hd & ?).
        exists d. split; [|done]. apply elem_of_app. by left.
Qed.

Lemma set_online_false_offline t user_id x us :
  Forall (λ u, u_user_id u = x → u_is_online u = false) us →
  Forall (λ u, u_user_id u = x → u_is_online u = false)
         (set_online false t user_id us).
Proof.
  intros Hus. unfold set_online. apply Forall_fmap.
  eapply Forall_impl; [done|]. intros u Hu. simpl. by case_decide.
Qed.

Lemma set_online_false_self t user_id us :
  Forall (λ u, u_user_id u = user_id → u_is_online u = false)
         (set_online false t user_id us).
Proof.
  unfold set_online. apply Forall_fmap, Forall_forall. intros u _. simpl.
  by case_decide.
Qed.

Lemma push_step_frame w w' : push_step send_json_ok w w' → frame send_json_ok w w'.
Proof.
  destruct 1 as [w u ws ev Hu Hok|w u ws ev Hu Hok].
  - split; try done. exists [mkDelivery u ws ev true]. split; [done|].
    split; [by repeat constructor|]. simpl. intros v [ws' Hv] Hnone. congruence.
  - split; simpl; try done.
    + apply set_online_profile.
    + apply delete_subseteq.
    + intros v ws' Hv Hrel. rewrite lookup_delete_ne; [done|].
      intros <-. simplify_eq. rewrite Hrel in Hok. done.
    + intros x. apply set_online_false_offline.
    + exists [mkDelivery u ws ev false]. split; [done|].
      split; [by repeat constructor|]. intros v [ws' Hv] Hnone.
      destruct (decide (u = v)) as [->|Hne].
      * eexists. split; [by left|done].
      * rewrite lookup_delete_ne in Hnone by done. congruence.
Qed.

Lemma cascade_frame w w' : cascade send_json_ok w w' → frame send_json_ok w w'.
Proof.
  induction 1 as [|w1 w2 w3 Hstep _ IH]; [done|].
  transitivity w2; [by apply push_step_frame|done].
Qed.

Lemma frame_messages w w' : frame send_json_ok w w' → messages (db w') = messages (db w).
Proof. intros [T _ _ _ _ _ _]. by apply (f_equal messages) in T. Qed.

Lemma frame_size w w' :
  frame send_json_ok w w' → size (active_connections w') ≤ size (active_connections w).
Proof. intros [_ _ _ C _ _ _]. by apply map_subseteq_size. Qed.

(** ** [send_to_user] against the cascade *)

Lemma broadcast_status_with_cascade send user_id is_online w w' :
  (∀ u m v v', send u m v = Some v' → cascade send_json_ok v v') →
  broadcast_status_with send user_id is_online w = Some w' → cascade send_json_ok w w'.
Proof.
  intros Hsend Hrun. unfold broadcast_status_with in Hrun.
  eapply (for_each_invariant _ (λ _, True) (cascade send_json_ok)) in Hrun as [_ ?]; [done| |done].
  intros c v v' _ _ Hc. split; [done|]. by eapply Hsend.
Qed.

Lemma send_to_user_fuel_cascade fuel user_id message w w' :
  send_to_user_fuel send_json_ok fuel user_id message w = Some w' → cascade send_json_ok w w'.
Proof.
  revert user_id message w w'.
  induction fuel as [|fuel IH]; intros u m w w' Hrun; simpl in Hrun.
  - destruct (active_connections w !! u) as [ws|] eqn:Hu; simplify_eq; [|done].
    destruct (send_json_ok _ ws) eqn:Hok; simplify_eq.
    apply rtc_once. by constructor.
  - destruct (active_connections w !! u) as [ws|] eqn:Hu; simplify_eq; [|done].
    destruct (send_json_ok _ ws) eqn:Hok; simplify_eq.
    + apply rtc_once. by constructor.
    + eapply rtc_l; [by apply (push_dropped _ w u ws m)|].
      eapply broadcast_status_with_cascade; [|exact Hrun]. apply IH.
Qed.

Lemma send_to_user_cascade user_id message w w' :
  send_to_user send_json_ok user_id message w = Some w' → cascade send_json_ok w w'.
Proof. apply send_to_user_fuel_cascade. Qed.

(** ** Termination: the number of sessions bounds the nesting *)

Lemma send_to_user_fuel_total fuel user_id message w :
  size (active_connections w) ≤ fuel →
  is_Some (send_to_user_fuel send_json_ok fuel user_id message w).
Proof.
  revert user_id message w.
  induction fuel as [|fuel IH]; intros u m w Hsize; simpl.
  - assert (active_connections w = ∅) as ->.
    { apply map_size_empty_iff. lia. }
    by rewrite lookup_empty.
  - destruct (active_connections w !! u) as [ws|] eqn:Hu; [|done].
    destruct (send_json_ok _ ws); [done|].
    unfold disconnect_with, broadcast_status_with.
    edestruct (for_each_total
      (λ contact_id, send_to_user_fuel send_json_ok fuel contact_id (status_event u false))
      (λ v, size (active_connections v) ≤ fuel)) as (w' & -> & _); [| |done].
    + intros c v _ Hv. destruct (IH c (status_event u false) v Hv) as [v' Hv'].
      exists v'. split; [done|].
      apply send_to_user_fuel_cascade, cascade_frame, frame_size in Hv'. lia.
    + simpl. pose proof (map_size_delete_Some u (active_connections w) (mk_is_Some _ _ Hu)). lia.
Qed.

Lemma send_to_user_total user_id message w :
  is_Some (send_to_user send_json_ok user_id message w).
Proof. by apply send_to_user_fuel_total. Qed.

(** ** The fuel does not matter once it covers the sessions *)

Lemma for_each_mono {A} (body1 body2 : A → World → option World) l w w' :
  (∀ x v v', body1 x v = Some v' → body2 x v = Some v') →
  for_each body1 l w = Some w' → for_each body2 l w = Some w'.
Proof.
  intros Hle. revert w. induction l as [|x l IH]; intros w Hrun; [done|].
  simpl in *. destruct (body1 x w) as [v|] eqn:Hx; simplify_eq/=.
  rewrite (Hle _ _ _ Hx). simpl. by apply IH.
Qed.

Lemma send_to_user_fuel_mono fuel fuel' user_id message w w' :
  send_to_user_fuel send_json_ok fuel user_id message w = Some w' →
  fuel ≤ fuel' →
  send_to_user_fuel send_json_ok fuel' user_id message w = Some w'.
Proof.
  revert fuel' user_id message w w'.
  induction fuel as [|fuel IH]; intros fuel' u m w w' Hrun Hle.
  - destruct fuel'; simpl in *;
      destruct (active_connections w !! u) as [ws|]; try done;
      by destruct (send_json_ok _ ws).
  - destruct fuel' as [|fuel']; [lia|]. simpl in *.
    destruct (active_connections w !! u) as [ws|]; [|done].
    destruct (send_json_ok _ ws); [done|].
    unfold disconnect_with, broadcast_status_with in *.
    eapply for_each_mono; [|exact Hrun].
    intros c v v' Hc. simpl in Hc. apply IH; [done|lia].
Qed.

Lemma send_to_user_fuel_enough fuel user_id message w :
  size (active_connections w) ≤ fuel →
  send_to_user_fuel send_json_ok fuel user_id message w
  = send_to_user send_json_ok user_id message w.
Proof.
  intros Hle. destruct (send_to_user_total user_id message w) as [w' Hw'].
  rewrite Hw'. by eapply send_to_user_fuel_mono.
Qed.

(** [send_to_user] satisfies the equation its source reads as. *)
Lemma send_to_user_eq user_id message w :
  send_to_user send_json_ok user_id message w =
  match active_connections w !! user_id with
  | None => Some w
  | Some ws =>
      if send_json_ok (length (wire w)) ws
      then Some (record_send user_id ws message true w)
      else disconnect send_json_ok user_id (record_send user_id ws message false w)
  end.
Proof.
  unfold send_to_user at 1.
  destruct (size (active_connections w)) as [|n] eqn:Hsize; simpl.
  - apply map_size_empty_iff in Hsize. by rewrite Hsize, lookup_empty.
  - destruct (active_connections w !! user_id) as [ws|] eqn:Hu; [|done].
    destruct (send_json_ok _ ws); [done|].
    unfold disconnect, disconnect_with, broadcast_status_with.
    apply (for_each_ext _ _ (λ v, size (active_connections v) ≤ n)).
    + intros c v _ Hv. by apply send_to_user_fuel_enough.
    + intros c v v' _ Hv Hc.
      apply send_to_user_fuel_cascade, cascade_frame, frame_size in Hc. lia.
    + simpl. pose proof (map_size_delete_Some user_id (active_connections w)
                           (mk_is_Some _ _ Hu)). lia.
Qed.

(** ** What a push puts on the wire *)

Lemma offline_notice_weaken w v d :
  active_connections v ⊆ active_connections w →
  offline_notice v d → offline_notice w d.
Proof.
  intros Hsub (x & Hev & [ws Hx]). exists x. split; [done|].
  exists ws. by eapply lookup_weaken.
Qed.

Lemma send_to_user_fuel_trace fuel user_id message w w' :
  send_to_user_fuel send_json_ok fuel user_id message w = Some w' →
  push_trace send_json_ok user_id message w w'.
Proof.
  revert user_id message w w'.
  induction fuel as [|fuel IH]; intros u m w w' Hrun; unfold push_trace;
    simpl in Hrun; destruct (active_connections w !! u) as [ws|] eqn:Hu;
    simplify_eq; try done.
  - destruct (send_json_ok _ ws) eqn:Hok; simplify_eq. by exists [].
  - simpl. destruct (send_json_ok _ ws) eqn:Hok; simplify_eq.
    { by exists []. }
    set (w1 := go_offline u (record_send u ws m false w)) in *.
    unfold disconnect_with, broadcast_status_with in Hrun. fold w1 in Hrun.
    set (R := λ v v' : World,
           ∃ sent, wire v' = wire v ++ sent ∧ Forall (offline_notice w) sent).
    assert (Reflexive R) by (intros v; exists []; by rewrite app_nil_r).
    assert (Transitive R).
    { intros v1 v2 v3 (s1 & E1 & F1) (s2 & E2 & F2). exists (s1 ++ s2).
      split; [by rewrite E2, E1, app_assoc|by apply Forall_app]. }
    eapply (for_each_invariant _
      (λ v, active_connections v ⊆ active_connections w) R)
      in Hrun as [_ (sent & Hwire & Hsent)].
    + exists sent. split; [|done]. rewrite Hwire. simpl. by rewrite <-app_assoc.
    + intros c v v' _ Hv Hc. split.
      { apply send_to_user_fuel_cascade, cascade_frame in Hc.
        destruct Hc as [_ _ _ C _ _ _]. by transitivity (active_connections v). }
      apply IH in Hc. unfold push_trace in Hc.
      destruct (active_connections v !! c) as [ws'|]; simplify_eq.
      * destruct Hc as (sent & Hwire & _ & Hsent). eexists. split; [done|].
        constructor.
        -- exists u. split; [done|]. by exists ws.
        -- eapply Forall_impl; [done|]. intros d. by apply offline_notice_weaken.
      * exists []. by rewrite app_nil_r.
    + simpl. apply delete_subseteq.
Qed.

Lemma send_to_user_fuel_spec fuel :
  push_spec send_json_ok (send_to_user_fuel send_json_ok fuel).
Proof.
  intros u m w w' Hrun. split.
  - by eapply send_to_user_fuel_cascade.
  - by eapply send_to_user_fuel_trace.
Qed.

Lemma send_to_user_spec : push_spec send_json_ok (send_to_user send_json_ok).
Proof. intros u m w w'. apply send_to_user_fuel_spec. Qed.

End cascade.

(** ** The store that a handler sees after its pushes *)

Section send_message.
Variable send_json_ok : nat → WebSocket → bool.
Variable isoformat : Z → string.

Lemma for_each_fmap_commute {A} (g : World → World)
    (body : A → World → option World) l w :
  (∀ x v, body x (g v) = g <$> body x v) →
  for_each body l (g w) = g <$> for_each body l w.
Proof.
  intros Hbody. revert w. induction l as [|x l IH]; intros w; simpl; [done|].
  rewrite Hbody. destruct (body x w) as [v|]; simpl; [apply IH|done].
Qed.

(** No push reads the [blocked_users] table. *)
Lemma send_to_user_fuel_set_blocked bs fuel user_id message w :
  send_to_user_fuel send_json_ok fuel user_id message (set_blocked bs w)
  = set_blocked bs <$> send_to_user_fuel send_json_ok fuel user_id message w.
Proof.
  revert user_id message w.
  induction fuel as [|fuel IH]; intros u m w; simpl;
    destruct (active_connections w !! u) as [ws|]; try done;
    destruct (send_json_ok _ ws); try done.
  unfold disconnect_with, broadcast_status_with.
  change (go_offline u (record_send u ws m false (set_blocked bs w)))
    with (set_blocked bs (go_offline u (record_send u ws m false w))).
  apply (for_each_fmap_commute (set_blocked bs)). intros c v. apply IH.
Qed.

Lemma send_to_user_set_blocked bs user_id message w :
  send_to_user send_json_ok user_id message (set_blocked bs w)
  = set_blocked bs <$> send_to_user send_json_ok user_id message w.
Proof. apply send_to_user_fuel_set_blocked. Qed.

Lemma select_blocked_nil user_id blocked_user_id d :
  select_blocked user_id blocked_user_id d = []
  ↔ (user_id, blocked_user_id) ∉ blocked_users d.
Proof.
  unfold select_blocked. split.
  - intros Hnil Hin.
    assert ((user_id, blocked_user_id) ∈
            filter (λ b, b.1 = user_id ∧ b.2 = blocked_user_id) (blocked_users d))
      as Hf by (by apply list_elem_of_filter).
    rewrite Hnil in Hf. by apply not_elem_of_nil in Hf.
  - intros Hnot.
    destruct (filter _ _) as [|[a b] l] eqn:Hf; [done|]. exfalso. apply Hnot.
    assert ((a, b) ∈ filter (λ b, b.1 = user_id ∧ b.2 = blocked_user_id)
                            (blocked_users d)) as Hin by (rewrite Hf; by left).
    apply list_elem_of_filter in Hin as [[??] ?]. by simplify_eq/=.
Qed.

(** The send of an unblocked sender, step by step. *)
Lemma send_message_unblocked message sender_id w :
  (mc_recipient_id message, sender_id) ∉ blocked_users (db w) →
  send_message send_json_ok message sender_id w =
  (λ w', (w', Ok (messages_lastrowid (db w) + 1)%Z)) <$>
    send_to_user send_json_ok (mc_recipient_id message)
      (new_message (messages_lastrowid (db w) + 1) sender_id
                   (mc_encrypted_content message))
      (with_db (insert_message sender_id message (now w) (db w)) w).
Proof.
  intros Hnot. apply select_blocked_nil in Hnot.
  unfold send_message. rewrite Hnot. simpl.
  by destruct (send_to_user _ _ _ _).
Qed.

Lemma disconnect_cascade user_id w w' :
  disconnect send_json_ok user_id w = Some w' →
  cascade send_json_ok (go_offline user_id w) w'.
Proof.
  apply broadcast_status_with_cascade. intros u m v v'.
  apply send_to_user_cascade.
Qed.

Lemma disconnect_total user_id w :
  is_Some (disconnect send_json_ok user_id w).
Proof.
  unfold disconnect, disconnect_with, broadcast_status_with.
  edestruct (for_each_total
    (λ contact_id, send_to_user send_json_ok contact_id (status_event user_id false))
    (λ _, True)) as (w' & -> & _); [|done|done].
  intros c v _ _. destruct (send_to_user_total send_json_ok c
                              (status_event user_id false) v) as [v' ->]. eauto.
Qed.

Lemma send_message_blocked message sender_id w :
  (mc_recipient_id message, sender_id) ∈ blocked_users (db w) →
  send_message send_json_ok message sender_id w
  = Some (w, HTTPException 403 blocked_error).
Proof.
  intros Hin. unfold send_message.
  destruct (select_blocked _ _ _) eqn:Hsel; [|done].
  apply select_blocked_nil in Hsel. done.
Qed.

(** C1. A send from a sender whom the recipient blocks raises the 403 error
    and leaves the world as it was: no row is inserted, nothing is pushed,
    and the conversation of the pair, fetched from either end, lists the rows
    it listed before. *)
Theorem blocked_send_rejected message sender_id w :
  (mc_recipient_id message, sender_id) ∈ blocked_users (db w) →
  ∃ w', send_message send_json_ok message sender_id w
        = Some (w', HTTPException 403 blocked_error)
      ∧ w' = w
      ∧ messages (db w') = messages (db w)
      ∧ get_messages isoformat (mc_recipient_id message) sender_id w'
        = get_messages isoformat (mc_recipient_id message) sender_id w
      ∧ get_messages isoformat sender_id (mc_recipient_id message) w'
        = get_messages isoformat sender_id (mc_recipient_id message) w.
Proof. intros Hin. exists w. split; [by apply send_message_blocked|done]. Qed.

(** A send that passes the block check returns the id of the inserted row. *)
Lemma send_message_unblocked_run message sender_id w :
  (mc_recipient_id message, sender_id) ∉ blocked_users (db w) →
  ∃ w', send_message send_json_ok message sender_id w
        = Some (w', Ok (messages_lastrowid (db w) + 1)%Z)
      ∧ messages (db w') = messages (db w) ++ [sent_row message sender_id w].
Proof.
  intros Hnot. rewrite (send_message_unblocked _ _ _ Hnot).
  destruct (send_to_user_total send_json_ok (mc_recipient_id message)
              (new_message (messages_lastrowid (db w) + 1) sender_id
                           (mc_encrypted_content message))
              (with_db (insert_message sender_id message (now w) (db w)) w))
    as [w' Hw'].
  exists w'. rewrite Hw'. split; [done|].
  apply send_to_user_cascade, cascade_frame, frame_messages in Hw'. by rewrite Hw'.
Qed.

(** C2. A send from an unblocked sender returns the id that the insert
    assigned and commits the row, whatever happens to the push: with the
    recipient offline nothing else changes; with a socket that takes the
    event the event is recorded; with a dead socket the handler runs
    [disconnect] for the recipient - the session is gone and the recipient is
    marked offline - and the response and the row are still the same. *)
Theorem send_result_independent_of_push message sender_id w :
  (mc_recipient_id message, sender_id) ∉ blocked_users (db w) →
  let recipient_id := mc_recipient_id message in
  let message_id := (messages_lastrowid (db w) + 1)%Z in
  let event := new_message message_id sender_id (mc_encrypted_content message) in
  let w1 := with_db (insert_message sender_id message (now w) (db w)) w in
  ∃ w', send_message send_json_ok message sender_id w = Some (w', Ok message_id)
      ∧ messages (db w') = messages (db w) ++ [sent_row message sender_id w]
      ∧ match active_connections w !! recipient_id with
        | None => w' = w1
        | Some ws =>
            if send_json_ok (length (wire w)) ws
            then w' = record_send recipient_id ws event true w1
            else disconnect send_json_ok recipient_id
                   (record_send recipient_id ws event false w1) = Some w'
                 ∧ active_connections w' !! recipient_id = None
                 ∧ Forall (λ u, u_user_id u = recipient_id → u_is_online u = false)
                          (users (db w'))
        end.
Proof.
  intros Hnot recipient_id message_id event w1.
  rewrite (send_message_unblocked _ _ _ Hnot). fold recipient_id message_id event w1.
  destruct (send_to_user_total send_json_ok recipient_id event w1) as [w' Hw'].
  exists w'. rewrite Hw'. split; [done|]. split.
  - apply send_to_user_cascade, cascade_frame, frame_messages in Hw'. by rewrite Hw'.
  - rewrite send_to_user_eq in Hw'.
    change (active_connections w1) with (active_connections w) in Hw'.
    change (wire w1) with (wire w) in Hw'.
    destruct (active_connections w !! recipient_id) as [ws|]; [|by simplify_eq].
    destruct (send_json_ok _ ws); [by simplify_eq|].
    split; [done|].
    apply disconnect_cascade, cascade_frame in Hw'.
    destruct Hw' as [_ _ _ C _ O _]. split.
    + eapply lookup_weaken_None; [|exact C]. simpl. apply lookup_delete_eq.
    + apply O. simpl. apply set_online_false_self.
Qed.

(** C10. Only the recipient's block counts.  When the sender blocks the
    recipient and the recipient does not block the sender, the send returns
    the assigned id and commits the row, and does exactly what it does on the
    same world with an empty [blocked_users] table. *)
Theorem block_check_one_directional message sender_id w :
  (sender_id, mc_recipient_id message) ∈ blocked_users (db w) →
  (mc_recipient_id message, sender_id) ∉ blocked_users (db w) →
  ∃ w', send_message send_json_ok message sender_id w
        = Some (w', Ok (messages_lastrowid (db w) + 1)%Z)
      ∧ send_message send_json_ok message sender_id (set_blocked [] w)
        = Some (set_blocked [] w', Ok (messages_lastrowid (db w) + 1)%Z)
      ∧ messages (db w') = messages (db w) ++ [sent_row message sender_id w].
Proof.
  intros _ Hnot.
  destruct (send_message_unblocked_run message sender_id w Hnot)
    as (w' & Hrun & Hrows).
  exists w'. split; [done|]. split; [|done].
  rewrite send_message_unblocked by (simpl; apply not_elem_of_nil).
  rewrite (send_message_unblocked _ _ _ Hnot) in Hrun.
  change (with_db _ (set_blocked [] w))
    with (set_blocked [] (with_db (insert_message sender_id message (now w) (db w)) w)).
  rewrite send_to_user_set_blocked. simpl.
  destruct (send_to_user _ _ _ _) as [v|]; by simplify_eq/=.
Qed.

Lemma reply_resolves_weaken ms ms' reply_to_id :
  ms ⊆ ms' → reply_resolves ms reply_to_id → reply_resolves ms' reply_to_id.
Proof.
  intros Hsub. destruct reply_to_id as [i|]; [|done]. simpl.
  rewrite !list_elem_of_fmap. intros (r & Hi & Hr). exists r. split; [done|].
  by apply Hsub.
Qed.

(** The handler itself stores the [reply_to_id] it is given: the row of a
    successful send is the supplied row under the next id, [reply_to_id]
    unchanged.  So a reference that is absent or names an existing message
    is committed as such, and a store all of whose replies resolve stays
    one. *)
Lemma reply_to_id_stored_as_supplied message sender_id w w' r :
  send_message send_json_ok message sender_id w = Some (w', r) →
  (∀ message_id, r = Ok message_id →
     messages (db w') = messages (db w) ++ [sent_row message sender_id w]
     ∧ m_id (sent_row message sender_id w) = message_id
     ∧ m_reply_to_id (sent_row message sender_id w) = mc_reply_to_id message)
  ∧ (reply_resolves (messages (db w)) (mc_reply_to_id message) →
     Forall (λ m, reply_resolves (messages (db w)) (m_reply_to_id m))
            (messages (db w)) →
     Forall (λ m, reply_resolves (messages (db w')) (m_reply_to_id m))
            (messages (db w'))).
Proof.
  intros Hrun.
  destruct (decide ((mc_recipient_id message, sender_id) ∈ blocked_users (db w)))
    as [Hin|Hnot].
  - rewrite (send_message_blocked _ _ _ Hin) in Hrun. by simplify_eq.
  - destruct (send_message_unblocked_run message sender_id w Hnot)
      as (v & Hv & Hrows).
    rewrite Hv in Hrun. simplify_eq. split.
    + by intros ? [= <-].
    + intros Hnew Hold. rewrite Hrows. apply Forall_app. split.
      * eapply Forall_impl; [done|]. intros m. apply reply_resolves_weaken.
        intros x Hx. apply elem_of_app. by left.
      * constructor; [|done]. simpl.
        eapply reply_resolves_weaken; [|done].
        intros x Hx. apply elem_of_app. by left.
Qed.




End send_message.

(** ** Conversations and read receipts *)

Section conversation.
Variable send_json_ok : nat → WebSocket → bool.
Variable isoformat : Z → string.

Lemma between_comm a b m : between a b m ↔ between b a m.
Proof. unfold between. tauto. Qed.

Lemma left_join_reply_message ms m row :
  row ∈ left_join_reply ms m → r_message row = m.
Proof.
  unfold left_join_reply. destruct (filter _ ms) as [|r rs].
  - intros ->%list_elem_of_singleton. done.
  - intros (r' & -> & _)%list_elem_of_fmap. done.
Qed.

Lemma left_join_reply_nonempty ms m : ∃ row, row ∈ left_join_reply ms m.
Proof.
  unfold left_join_reply. destruct (filter _ ms) as [|r rs]; eexists; by left.
Qed.

Global Instance created_le_trans : Transitive created_le.
Proof. unfold created_le. intros x y z. lia. Qed.

Global Instance created_le_total : Total created_le.
Proof. unfold created_le. intros x y. lia. Qed.

Lemma select_conversation_comm a b d :
  select_conversation a b d = select_conversation b a d.
Proof.
  unfold select_conversation. f_equal. apply list_filter_iff.
  intros row. apply between_comm.
Qed.

Lemma elem_of_select_conversation a b d m :
  m ∈ r_message <$> select_conversation a b d ↔ m ∈ messages d ∧ between a b m.
Proof.
  unfold select_conversation. rewrite merge_sort_Permutation.
  rewrite list_elem_of_fmap. split.
  - intros (row & -> & Hrow).
    apply list_elem_of_filter in Hrow as [Hab Hrow].
    apply list_elem_of_bind in Hrow as (m & Hrow & Hm).
    apply left_join_reply_message in Hrow. rewrite Hrow in Hab |- *. done.
  - intros [Hm Hab].
    destruct (left_join_reply_nonempty (messages d) m) as [row Hrow].
    exists row. pose proof (left_join_reply_message _ _ _ Hrow) as Heq.
    split; [done|]. apply list_elem_of_filter. split; [by rewrite Heq|].
    apply list_elem_of_bind. eauto.
Qed.

(** With distinct ids the left join finds at most one reply target. *)
Lemma left_join_reply_singleton ms m :
  NoDup (m_id <$> ms) →
  ∃ row, left_join_reply ms m = [row] ∧ r_message row = m.
Proof.
  intros Hids. unfold left_join_reply.
  destruct (filter _ ms) as [|r [|r' rs]] eqn:Hf; [by eauto..|]. exfalso.
  assert (NoDup (m_id <$> r :: r' :: rs)) as Hsub.
  { eapply sublist_NoDup; [exact Hids|]. apply fmap_sublist.
    rewrite <-Hf. apply sublist_filter. }
  assert (r ∈ filter (λ r, m_reply_to_id m = Some (m_id r)) ms) as Hr
    by (rewrite Hf; by left).
  assert (r' ∈ filter (λ r, m_reply_to_id m = Some (m_id r)) ms) as Hr'
    by (rewrite Hf; right; by left).
  apply list_elem_of_filter in Hr as [Hr _].
  apply list_elem_of_filter in Hr' as [Hr' _].
  simpl in Hsub. apply NoDup_cons_1_1 in Hsub. apply Hsub.
  assert (m_id r = m_id r') as -> by congruence. by left.
Qed.

Lemma select_rows_messages a b ms l :
  NoDup (m_id <$> ms) →
  r_message <$> filter (λ row, between a b (r_message row))
                       (l ≫= left_join_reply ms)
  = filter (between a b) l.
Proof.
  intros Hids. induction l as [|m l IH]; [done|].
  destruct (left_join_reply_singleton ms m Hids) as (row & Hrow & Hm).
  change ((m :: l) ≫= left_join_reply ms)
    with (left_join_reply ms m ++ (l ≫= left_join_reply ms)).
  rewrite Hrow. change ([row] ++ ?rest) with (row :: rest).
  rewrite !filter_cons, Hm. case_decide; [|exact IH].
  by rewrite fmap_cons, IH, Hm.
Qed.

Lemma select_conversation_Permutation a b d :
  NoDup (m_id <$> messages d) →
  r_message <$> select_conversation a b d ≡ₚ filter (between a b) (messages d).
Proof.
  intros Hids. unfold select_conversation.
  rewrite merge_sort_Permutation. by rewrite select_rows_messages.
Qed.

(** The ids stay distinct under the two statements that write [messages]. *)
Lemma insert_message_ids_fresh sender_id message t d :
  ids_fresh d → ids_fresh (insert_message sender_id message t d).
Proof.
  intros [Hids Hle]. split; simpl.
  - rewrite fmap_app. apply NoDup_app. split; [done|]. split.
    + intros i Hi [->|[]%elem_of_nil]%elem_of_cons.
      apply list_elem_of_fmap in Hi as (m & Hm & Hin).
      rewrite Forall_forall in Hle. apply Hle in Hin. simpl in *. lia.
    + apply NoDup_singleton.
  - apply Forall_app. split.
    + eapply Forall_impl; [done|]. intros m Hm. simpl in *. lia.
    + constructor; [simpl; lia|done].
Qed.

Lemma markRead_ids_fresh sender_id recipient_id d :
  ids_fresh d → ids_fresh (markRead sender_id recipient_id d).
Proof.
  intros [Hids Hle]. split; simpl.
  - unfold mark_read. rewrite <-list_fmap_compose.
    erewrite list_fmap_ext; [exact Hids|]. intros i m _. simpl. by case_decide.
  - unfold mark_read. apply Forall_fmap. eapply Forall_impl; [done|].
    intros m Hm. simpl. by case_decide.
Qed.

(** C7. The conversation of two users is the same fetched from either end;
    its rows are the rows of exactly those direct messages that one of the
    two sent to the other - each of them once, when the ids are distinct -
    and it is ordered by creation time, ascending. *)
Theorem conversation_symmetric_sorted a b w :
  get_messages isoformat a b w = get_messages isoformat b a w
  ∧ (∀ m, m ∈ (r_message ∘ fst) <$> get_messages isoformat a b w
          ↔ m ∈ messages (db w) ∧ between a b m)
  ∧ StronglySorted Z.le
      ((m_created_at ∘ r_message ∘ fst) <$> get_messages isoformat a b w)
  ∧ (NoDup (m_id <$> messages (db w)) →
     (r_message ∘ fst) <$> get_messages isoformat a b w
     ≡ₚ filter (between a b) (messages (db w))).
Proof.
  unfold get_messages. split; [|split; [|split]].
  - by rewrite select_conversation_comm.
  - intros m. rewrite <-list_fmap_compose.
    change (m ∈ r_message <$> select_conversation b a (db w)
            ↔ m ∈ messages (db w) ∧ between a b m).
    rewrite elem_of_select_conversation. rewrite (between_comm a b). done.
  - rewrite <-list_fmap_compose.
    apply (StronglySorted_fmap _ created_le); [done|].
    apply StronglySorted_merge_sort; apply _.
  - intros Hids. rewrite <-list_fmap_compose.
    change (r_message <$> select_conversation b a (db w)
            ≡ₚ filter (between a b) (messages (db w))).
    rewrite select_conversation_comm. by apply select_conversation_Permutation.
Qed.

Lemma mark_read_idemp s r ms :
  mark_read s r (mark_read s r ms) = mark_read s r ms.
Proof.
  unfold mark_read. rewrite <-list_fmap_compose. apply list_fmap_ext.
  intros i m _. simpl.
  destruct (decide (m_sender_id m = s ∧ m_recipient_id m = r ∧ m_is_read m = false))
    as [Hm|Hm]; simpl.
  - rewrite decide_False; [done|]. simpl. by intros (_ & _ & ?).
  - by rewrite decide_False.
Qed.

Lemma mark_read_none s r ms :
  Forall (λ m, ¬ unread_from s r m) ms → mark_read s r ms = ms.
Proof.
  intros Hnone. unfold mark_read. rewrite <-(list_fmap_id ms) at 2.
  apply Forall_fmap_ext_1. eapply Forall_impl; [done|].
  intros m Hm. simpl. by case_decide.
Qed.

Lemma on_read_run sender_id user_id w :
  ∃ w', on_read send_json_ok sender_id user_id w = Some w'
      ∧ messages (db w') = match truthy sender_id with
                           | Some s => mark_read s user_id (messages (db w))
                           | None => messages (db w)
                           end.
Proof.
  unfold on_read. destruct (truthy sender_id) as [s|]; [|by eauto].
  destruct (send_to_user_total send_json_ok s (messages_read user_id)
              (with_db (markRead s user_id (db w)) w)) as [w' Hw'].
  exists w'. split; [done|].
  by apply send_to_user_cascade, cascade_frame, frame_messages in Hw'.
Qed.

(** C6. [markRead] is a total function of the store.  It sets [is_read] on
    every row from the sender to the recipient and changes nothing else, so
    no unread row of the pair is left; applied twice it gives what it gives
    applied once; and on a store without unread rows of the pair it is the
    identity.  The [read] event always returns; with a sender id given it
    leaves the messages as [markRead] does, and handling the event a second
    time leaves them as the first time left them. *)
Theorem markRead_idempotent_total sender_id recipient_id d :
  markRead sender_id recipient_id (markRead sender_id recipient_id d)
  = markRead sender_id recipient_id d
  ∧ Forall2 (λ m m', m' = if decide (m_sender_id m = sender_id
                                    ∧ m_recipient_id m = recipient_id)
                          then as_read m else m)
            (messages d) (messages (markRead sender_id recipient_id d))
  ∧ Forall (λ m, ¬ unread_from sender_id recipient_id m)
           (messages (markRead sender_id recipient_id d))
  ∧ (Forall (λ m, ¬ unread_from sender_id recipient_id m) (messages d) →
     markRead sender_id recipient_id d = d)
  ∧ ∀ w, db w = d →
      ∃ w1 w2,
        on_read send_json_ok (Some sender_id) recipient_id w = Some w1
        ∧ (sender_id ≠ "" →
           messages (db w1) = messages (markRead sender_id recipient_id d))
        ∧ on_read send_json_ok (Some sender_id) recipient_id w1 = Some w2
        ∧ messages (db w2) = messages (db w1).
Proof.
  split; [|split; [|split; [|split]]].
  - unfold markRead. simpl. by rewrite mark_read_idemp.
  - simpl. unfold mark_read. apply Forall2_fmap_r, Forall2_same_length_lookup.
    split; [done|]. intros i m m' Hm Hm'. simplify_eq. unfold compose. cbn beta.
    destruct (decide (m_sender_id m = sender_id ∧ m_recipient_id m = recipient_id))
      as [[Hs Hr]|Hn].
    + destruct (m_is_read m) eqn:Hread.
      * rewrite decide_False by (by intros (_ & _ & ?)).
        destruct m; simpl in *; by subst.
      * by rewrite decide_True.
    + rewrite decide_False; [done|]. intros (? & ? & _). by apply Hn.
  - simpl. unfold mark_read. apply Forall_fmap, Forall_forall.
    intros m _. unfold unread_from. simpl. case_decide; simpl; [|done].
    by intros (_ & _ & ?).
  - intros Hnone. unfold markRead. rewrite mark_read_none by done.
    by destruct d.
  - intros w <-.
    destruct (on_read_run (Some sender_id) recipient_id w) as (w1 & Hw1 & Hm1).
    destruct (on_read_run (Some sender_id) recipient_id w1) as (w2 & Hw2 & Hm2).
    exists w1, w2. split; [done|]. split; [|split; [done|]].
    + intros Hne. rewrite Hm1. simpl. by rewrite decide_False.
    + rewrite Hm2, Hm1. destruct (truthy (Some sender_id)); [|done].
      apply mark_read_idemp.
Qed.

End conversation.

(** ** Sessions and presence *)

Section presence.
Variable send_json_ok : nat → WebSocket → bool.

Lemma elem_of_contacts user_id contact_id ms :
  contact_id ∈ contacts user_id ms ↔ counterpart user_id contact_id ms.
Proof.
  unfold contacts, counterpart.
  rewrite elem_of_remove_dups, list_elem_of_fmap. split.
  - intros (m & -> & Hm). apply list_elem_of_filter in Hm as [Hm Hin].
    exists m. split; [done|]. case_decide; [by left|right]. by destruct Hm.
  - intros (m & Hin & Hm). exists m. split.
    + case_decide; destruct Hm as [[??]|[??]]; congruence.
    + apply list_elem_of_filter. split; [|done]. destruct Hm as [[??]|[??]]; eauto.
Qed.

Lemma NoDup_contacts user_id ms : NoDup (contacts user_id ms).
Proof. apply NoDup_remove_dups. Qed.

Lemma attempts_app c m s1 s2 :
  attempts c m (s1 ++ s2) = attempts c m s1 + attempts c m s2.
Proof. unfold attempts. by rewrite filter_app, length_app. Qed.

Lemma deliveries_app c m s1 s2 :
  deliveries c m (s1 ++ s2) = deliveries c m s1 + deliveries c m s2.
Proof. unfold deliveries. by rewrite filter_app, length_app. Qed.

Lemma deliveries_le_attempts c m sent : deliveries c m sent ≤ attempts c m sent.
Proof.
  unfold deliveries, attempts. induction sent as [|d sent IH]; [done|].
  rewrite !filter_cons. repeat case_decide; simpl; try lia.
  exfalso. intuition.
Qed.

Lemma attempts_offline_notices c m w sent :
  foreign (active_connections w) m → Forall (offline_notice w) sent →
  attempts c m sent = 0.
Proof.
  intros Hm. unfold attempts. induction 1 as [|d sent (x & Hev & [ws Hx]) _ IH];
    [done|].
  rewrite filter_cons_False; [done|]. intros [_ Heq].
  rewrite Heq in Hev. apply Hm in Hev. congruence.
Qed.

Lemma attempts_cons c m d sent :
  attempts c m (d :: sent)
  = (if decide (d_user d = c ∧ d_event d = m) then 1 else 0) + attempts c m sent.
Proof. unfold attempts. rewrite filter_cons. by case_decide. Qed.

Lemma deliveries_cons c m d sent :
  deliveries c m (d :: sent)
  = (if decide (d_user d = c ∧ d_event d = m ∧ d_ok d = true) then 1 else 0)
    + deliveries c m sent.
Proof. unfold deliveries. rewrite filter_cons. by case_decide. Qed.

Lemma push_trace_counts user_id message w w' :
  push_trace send_json_ok user_id message w w' →
  foreign (active_connections w) message →
  ∃ sent, wire w' = wire w ++ sent
    ∧ (∀ c, c ≠ user_id → attempts c message sent = 0)
    ∧ attempts user_id message sent
      = match active_connections w !! user_id with Some _ => 1 | None => 0 end
    ∧ (live_session send_json_ok (active_connections w) user_id →
       deliveries user_id message sent = 1).
Proof.
  unfold push_trace. intros Htrace Hm.
  destruct (active_connections w !! user_id) as [ws|] eqn:Hu.
  - destruct Htrace as (sent & Hwire & _ & Hsent).
    pose proof (λ c, attempts_offline_notices c message w sent Hm Hsent) as Hzero.
    eexists. split; [done|]. split; [|split].
    + intros c Hc. rewrite attempts_cons, Hzero.
      rewrite decide_False; [done|]. simpl. by intros [? _].
    + rewrite attempts_cons, Hzero. by rewrite decide_True.
    + intros (ws' & Hws' & Hrel). simplify_eq.
      pose proof (deliveries_le_attempts user_id message sent) as Hle.
      rewrite Hzero in Hle. rewrite deliveries_cons.
      rewrite decide_True; [lia|]. simpl. by rewrite Hrel.
  - subst w'. exists []. rewrite app_nil_r. split; [done|]. split; [done|].
    split; [done|]. intros (ws & Hws & _). congruence.
Qed.

Lemma foreign_weaken (c1 c2 : gmap string WebSocket) m :
  c2 ⊆ c1 → foreign c1 m → foreign c2 m.
Proof. intros Hsub Hm x Hx. eapply lookup_weaken_None; [|done]. by apply Hm. Qed.

(** The loop of [broadcast_status], counted. *)
Lemma broadcast_counts send message cs w w' :
  push_spec send_json_ok send → NoDup cs →
  foreign (active_connections w) message →
  for_each (λ contact_id, send contact_id message) cs w = Some w' →
  ∃ sent, wire w' = wire w ++ sent
    ∧ (∀ c, c ∉ cs → attempts c message sent = 0)
    ∧ (∀ c, active_connections w !! c = None → attempts c message sent = 0)
    ∧ (∀ c, attempts c message sent ≤ 1)
    ∧ (∀ c, c ∈ cs → live_session send_json_ok (active_connections w) c →
            attempts c message sent = 1 ∧ deliveries c message sent = 1)
    ∧ (∀ c, c ∈ cs → is_Some (active_connections w !! c) →
            attempts c message sent = 1
            ∨ ∃ d, d ∈ sent ∧ d_user d = c ∧ d_ok d = false).
Proof.
  intros Hspec Hnodup. revert w.
  induction Hnodup as [|c0 cs Hc0 Hnodup IH]; intros w Hm Hrun; simpl in Hrun.
  { simplify_eq. exists []. rewrite app_nil_r. split; [done|].
    split; [done|]. split; [done|].
    split; [intros c; unfold attempts; simpl; lia|].
    split; intros c Hc; by apply not_elem_of_nil in Hc. }
  destruct (send c0 message w) as [v|] eqn:Hv; simplify_eq/=.
  apply Hspec in Hv as [Hcasc Htrace]. apply cascade_frame in Hcasc.
  destruct (push_trace_counts _ _ _ _ Htrace Hm) as (s0 & Hw0 & Hother & Hself & Hlive).
  destruct (IH v) as (s1 & Hw1 & Hout & Hnone & Hmost & Hin & Htried); [|done|].
  { eapply foreign_weaken; [|done]. by destruct Hcasc. }
  destruct Hcasc as [_ _ _ C R _ (s0' & Hw0' & _ & Hdrop)].
  assert (s0' = s0) as -> by (rewrite Hw0 in Hw0'; by apply app_inv_head in Hw0').
  exists (s0 ++ s1). split; [by rewrite Hw1, Hw0, app_assoc|].
  split; [|split; [|split; [|split]]].
  - intros c Hc. apply not_elem_of_cons in Hc as [Hne Hc].
    rewrite attempts_app, Hother, Hout; done.
  - intros c Hc. rewrite attempts_app, Hnone by (by eapply lookup_weaken_None).
    destruct (decide (c = c0)) as [->|Hne].
    + by rewrite Hself, Hc.
    + by rewrite Hother.
  - intros c. rewrite attempts_app. destruct (decide (c = c0)) as [->|Hne].
    + rewrite Hself, (Hout c0 Hc0). destruct (active_connections w !! c0); lia.
    + rewrite (Hother c Hne). apply Hmost.
  - intros c Hc (ws & Hws & Hrel). rewrite attempts_app, deliveries_app.
    destruct (decide (c = c0)) as [->|Hne].
    + rewrite Hself, Hws, (Hout c0 Hc0).
      pose proof (deliveries_le_attempts c0 message s1) as Hle.
      rewrite (Hout c0 Hc0) in Hle. rewrite Hlive by (by exists ws). lia.
    + apply elem_of_cons in Hc as [?|Hc]; [done|].
      destruct (Hin c Hc) as [Ha Hd]; [exists ws; eauto|].
      pose proof (deliveries_le_attempts c message s0) as Hle.
      rewrite (Hother c Hne) in Hle |- *. lia.
  - intros c Hc [ws Hws]. rewrite attempts_app.
    destruct (decide (c = c0)) as [->|Hne].
    + left. by rewrite Hself, Hws, (Hout c0 Hc0).
    + apply elem_of_cons in Hc as [?|Hc]; [done|]. rewrite (Hother c Hne).
      destruct (active_connections v !! c) as [ws'|] eqn:Hmid.
      * destruct (Htried c Hc) as [?|(d & Hd & ?)]; [by rewrite Hmid|by left|].
        right. exists d. split; [|done]. apply elem_of_app. by right.
      * destruct (Hdrop c) as (d & Hd & ?); [by rewrite Hws|done|].
        right. exists d. split; [|done]. apply elem_of_app. by left.
Qed.

Lemma broadcast_status_total user_id is_online w :
  is_Some (broadcast_status send_json_ok user_id is_online w).
Proof.
  unfold broadcast_status, broadcast_status_with.
  edestruct (for_each_total
    (λ contact_id, send_to_user send_json_ok contact_id
                     (status_event user_id is_online))
    (λ _, True)) as (w' & -> & _); [|done|done].
  intros c v _ _. destruct (send_to_user_total send_json_ok c
                              (status_event user_id is_online) v) as [v' ->]. eauto.
Qed.

Lemma broadcast_status_cascade user_id is_online w w' :
  broadcast_status send_json_ok user_id is_online w = Some w' →
  cascade send_json_ok w w'.
Proof.
  apply broadcast_status_with_cascade. intros u m v v'.
  apply send_to_user_cascade.
Qed.

Lemma broadcast_status_report user_id is_online w w' :
  foreign (active_connections w) (status_event user_id is_online) →
  broadcast_status send_json_ok user_id is_online w = Some w' →
  presence_report send_json_ok (active_connections w) user_id
    (status_event user_id is_online) (messages (db w)) (wire w) (wire w').
Proof.
  intros Hm Hrun.
  pose proof (broadcast_status_cascade _ _ _ _ Hrun) as Hframe.
  apply cascade_frame in Hframe.
  destruct Hframe as [_ _ _ _ _ _ (s & Hs & Hreg & _)].
  apply broadcast_counts in Hrun
    as (sent & Hwire & Hout & _ & Hmost & Hin & Htried);
    [|apply send_to_user_spec|apply NoDup_contacts|done].
  assert (s = sent) as -> by (rewrite Hwire in Hs; by apply app_inv_head in Hs).
  exists sent. split; [done|]. intros c.
  split; [|split; [|split; [|split; [done|]]]].
  - intros Hc. apply Hin. by apply elem_of_contacts.
  - intros Hnone. eapply Forall_impl; [exact Hreg|]. intros d Hd Heq.
    simpl in Hd. rewrite Heq in Hd. congruence.
  - intros Hc. apply Hout. by rewrite elem_of_contacts.
  - intros Hc. apply Htried. by apply elem_of_contacts.
Qed.

(** C8. Connecting (resp. disconnecting) user [user_id] always returns, and
    among the sends it adds to the wire there is exactly one [user_online]
    (resp. [user_offline]) event, delivered, for every counterpart of
    [user_id] in the direct messages that has a live session; a user without
    session is sent nothing; a user who is no counterpart gets no such event;
    no user is tried twice; and a counterpart with a session is tried, unless
    a send to it has raised (and dropped its session) earlier in the same
    broadcast. *)
Theorem presence_broadcast_once user_id websocket w :
  (∃ w', connect send_json_ok websocket user_id w = Some w'
       ∧ presence_report send_json_ok
           (<[user_id := websocket]> (active_connections w)) user_id
           (user_online user_id) (messages (db w)) (wire w) (wire w'))
  ∧ (∃ w', disconnect send_json_ok user_id w = Some w'
         ∧ presence_report send_json_ok
             (delete user_id (active_connections w)) user_id
             (user_offline user_id) (messages (db w)) (wire w) (wire w')).
Proof.
  split.
  - unfold connect.
    destruct (broadcast_status_total user_id true
                (update_status true user_id (register websocket user_id w)))
      as [w' Hw'].
    exists w'. split; [done|].
    apply broadcast_status_report in Hw'; [done|]. by intros x.
  - destruct (broadcast_status_total user_id false (go_offline user_id w))
      as [w' Hw'].
    exists w'. split; [done|].
    apply broadcast_status_report in Hw'; [done|].
    intros x [= <-]. simpl. apply lookup_delete_eq.
Qed.

Lemma frame_session user_id channel v w' :
  frame send_json_ok v w' →
  (∀ ws, active_connections v !! user_id = Some ws → ws = channel) →
  (∀ ws, active_connections w' !! user_id = Some ws → ws = channel)
  ∧ ∃ sent, wire w' = wire v ++ sent
          ∧ Forall (λ d, d_user d = user_id → d_socket d = channel) sent.
Proof.
  intros [_ _ _ C _ _ (sent & Hwire & Hreg & _)] Honly. split.
  - intros ws Hws. apply Honly. by eapply lookup_weaken.
  - exists sent. split; [done|]. eapply Forall_impl; [exact Hreg|].
    intros d Hd Hu. simpl in Hd. rewrite Hu in Hd. by apply Honly.
Qed.

Lemma connect_cascade websocket user_id w w' :
  connect send_json_ok websocket user_id w = Some w' →
  cascade send_json_ok (update_status true user_id (register websocket user_id w)) w'.
Proof. apply broadcast_status_cascade. Qed.

(** While the user does not connect again, the registry holds no other
    socket for the user and no other socket is tried. *)
Lemma session_steps_keep user_id channel w w' :
  rtc (session_step send_json_ok user_id) w w' →
  (∀ ws, active_connections w !! user_id = Some ws → ws = channel) →
  (∀ ws, active_connections w' !! user_id = Some ws → ws = channel)
  ∧ ∃ sent, wire w' = wire w ++ sent
          ∧ Forall (λ d, d_user d = user_id → d_socket d = channel) sent.
Proof.
  induction 1 as [w|w v w' Hstep _ IH]; intros Honly.
  { split; [done|]. exists []. by rewrite app_nil_r. }
  assert ((∀ ws, active_connections v !! user_id = Some ws → ws = channel)
          ∧ ∃ sent, wire v = wire w ++ sent
                  ∧ Forall (λ d, d_user d = user_id → d_socket d = channel) sent)
    as [Hv (s1 & Hw1 & Hs1)].
  { destruct Hstep as [target message w v Hrun|other w v Hrun
                       |websocket other w v Hne Hrun|d w].
    - apply send_to_user_cascade, cascade_frame in Hrun.
      by apply (frame_session user_id channel) in Hrun.
    - apply disconnect_cascade, cascade_frame in Hrun.
      apply (frame_session user_id channel) in Hrun; [done|].
      simpl. intros ws Hws. apply Honly. eapply lookup_weaken; [done|].
      apply delete_subseteq.
    - apply connect_cascade, cascade_frame in Hrun.
      apply (frame_session user_id channel) in Hrun; [done|].
      simpl. intros ws. rewrite lookup_insert_ne by done. apply Honly.
    - split; [done|]. exists []. by rewrite app_nil_r. }
  destruct (IH Hv) as [Hw' (s2 & Hw2 & Hs2)]. split; [done|].
  exists (s1 ++ s2). split; [by rewrite Hw2, Hw1, app_assoc|].
  by apply Forall_app.
Qed.

(** The request handlers are made of such steps. *)
Lemma handlers_are_session_steps user_id w :
  (∀ message sender_id w' r,
     send_message send_json_ok message sender_id w = Some (w', r) →
     rtc (session_step send_json_ok user_id) w w')
  ∧ (∀ group_id message sender_id w' r,
       send_group_message send_json_ok group_id message sender_id w = Some (w', r) →
       rtc (session_step send_json_ok user_id) w w')
  ∧ (∀ sender_id reader_id w',
       on_read send_json_ok sender_id reader_id w = Some w' →
       rtc (session_step send_json_ok user_id) w w')
  ∧ (∀ recipient_id sender_id w',
       on_typing send_json_ok recipient_id sender_id w = Some w' →
       rtc (session_step send_json_ok user_id) w w').
Proof.
  split; [|split; [|split]].
  - intros message sender_id w' r. unfold send_message.
    destruct (select_blocked _ _ _); [|by intros; simplify_eq].
    destruct (send_to_user _ _ _ _) as [v|] eqn:Hv; intros; simplify_eq/=.
    eapply rtc_l; [apply step_store|]. apply rtc_once. by eapply step_push.
  - intros group_id message sender_id w' r. unfold send_group_message.
    destruct (for_each _ _ _) as [v|] eqn:Hv; intros; simplify_eq/=.
    eapply rtc_l; [apply step_store|].
    eapply (for_each_invariant _ (λ _, True)
              (rtc (session_step send_json_ok user_id))) in Hv as [_ ?];
      [done| |done].
    intros m u u' _ _ Hm. split; [done|]. apply rtc_once. by eapply step_push.
  - intros sender_id reader_id w'. unfold on_read.
    destruct (truthy sender_id); [|by intros; simplify_eq].
    intros Hrun. eapply rtc_l; [apply step_store|].
    apply rtc_once. by eapply step_push.
  - intros recipient_id sender_id w'. unfold on_typing.
    destruct (truthy recipient_id); [|by intros; simplify_eq].
    intros Hrun. apply rtc_once. by eapply step_push.
Qed.

(** C3. Two connections of the same user, one after the other: both return.
    Registering the second socket makes it the user's entry; when the second
    [connect] has returned the registry holds for the user no socket but the
    second - and does hold it when that socket does not raise - and so it
    stays, with every attempt to reach the user made on the second socket,
    whatever the server does next (pushes, disconnects, connections of other
    users, writes to the store) until the user connects again. *)
Theorem second_connection_supersedes user_id channel1 channel2 w :
  ∃ w1 w2,
    connect send_json_ok channel1 user_id w = Some w1
    ∧ connect send_json_ok channel2 user_id w1 = Some w2
    ∧ active_connections (register channel2 user_id w1) !! user_id = Some channel2
    ∧ (∀ ws, active_connections w2 !! user_id = Some ws → ws = channel2)
    ∧ (reliable send_json_ok channel2 →
       active_connections w2 !! user_id = Some channel2)
    ∧ (∀ message w3,
         send_to_user send_json_ok user_id message w2 = Some w3 →
         active_connections w2 !! user_id = Some channel2 →
         ∃ sent, wire w3 = wire w2 ++
                   mkDelivery user_id channel2 message
                     (send_json_ok (length (wire w2)) channel2) :: sent)
    ∧ (∀ w3, rtc (session_step send_json_ok user_id) w2 w3 →
         (∀ ws, active_connections w3 !! user_id = Some ws → ws = channel2)
         ∧ ∃ sent, wire w3 = wire w2 ++ sent
                 ∧ Forall (λ d, d_user d = user_id → d_socket d = channel2) sent).
Proof.
  unfold connect at 1.
  destruct (broadcast_status_total user_id true
              (update_status true user_id (register channel1 user_id w)))
    as [w1 Hw1].
  unfold connect.
  destruct (broadcast_status_total user_id true
              (update_status true user_id (register channel2 user_id w1)))
    as [w2 Hw2].
  exists w1, w2. split; [done|]. split; [done|].
  split; [apply lookup_insert_eq|].
  apply broadcast_status_cascade, cascade_frame in Hw2.
  destruct Hw2 as [_ _ _ C R _ _]. simpl in C, R.
  assert (∀ ws, active_connections w2 !! user_id = Some ws → ws = channel2) as Honly.
  { intros ws Hws. eapply lookup_weaken in Hws; [|exact C].
    rewrite lookup_insert_eq in Hws. congruence. }
  split; [done|]. split; [|split].
  - intros Hrel. apply R; [|done]. apply lookup_insert_eq.
  - intros message w3 Hrun Hreg. apply send_to_user_spec in Hrun as [_ Htrace].
    unfold push_trace in Htrace. rewrite Hreg in Htrace.
    destruct Htrace as (sent & Hwire & _). eauto.
  - intros w3 Hsteps. by apply (session_steps_keep user_id channel2 w2 w3).
Qed.

End presence.

(** ** Groups *)

Section groups.
Variable send_json_ok : nat → WebSocket → bool.
Variable isoformat : Z → string.

Lemma frame_group_members w w' :
  frame send_json_ok w w' → group_members (db w') = group_members (db w).
Proof. intros [T _ _ _ _ _ _]. by apply (f_equal group_members) in T. Qed.

Lemma frame_group_messages w w' :
  frame send_json_ok w w' → group_messages (db w') = group_messages (db w).
Proof. intros [T _ _ _ _ _ _]. by apply (f_equal group_messages) in T. Qed.

Lemma frame_chat_groups w w' :
  frame send_json_ok w w' → chat_groups (db w') = chat_groups (db w).
Proof. intros [T _ _ _ _ _ _]. by apply (f_equal chat_groups) in T. Qed.

(** The member loop of [create_group]. *)
Lemma create_group_loop group user_id group_id member_ids w :
  ∃ w', for_each
          (λ member_id w,
             match gc_encrypted_keys group !! member_id with
             | Some key =>
                 if decide (member_id ≠ user_id)
                 then send_to_user send_json_ok member_id
                        (group_added group_id (gc_name group))
                        (with_db (insert_group_member group_id member_id key (db w)) w)
                 else Some w
             | None => Some w
             end)
          member_ids w = Some w'
      ∧ group_members (db w')
        = group_members (db w) ++ new_member_rows group user_id group_id member_ids.
Proof.
  revert w. induction member_ids as [|m ms IH]; intros w; simpl.
  { exists w. by rewrite app_nil_r. }
  unfold new_member_rows. simpl.
  destruct (gc_encrypted_keys group !! m) as [key|] eqn:Hkey; simpl.
  - case_decide as Hne; simpl.
    + destruct (send_to_user_total send_json_ok m
                  (group_added group_id (gc_name group))
                  (with_db (insert_group_member group_id m key (db w)) w))
        as [v Hv].
      rewrite Hv. simpl. destruct (IH v) as (w' & Hw' & Hrows).
      exists w'. split; [done|]. rewrite Hrows.
      apply send_to_user_cascade, cascade_frame, frame_group_members in Hv.
      rewrite Hv. simpl. by rewrite <-app_assoc.
    + apply IH.
  - apply IH.
Qed.

Lemma create_group_run group user_id group_id w :
  ∃ w', create_group send_json_ok group user_id group_id w
        = Some (w', Ok group_id)
      ∧ group_members (db w')
        = group_members (db w) ++ creator_row group user_id group_id
          ++ new_member_rows group user_id group_id (gc_member_ids group).
Proof.
  unfold create_group.
  edestruct (create_group_loop group user_id group_id (gc_member_ids group))
    as (w' & -> & Hrows).
  exists w'. split; [done|]. rewrite Hrows. unfold creator_row.
  destruct (gc_encrypted_keys group !! user_id); simpl.
  - by rewrite <-app_assoc.
  - done.
Qed.

Lemma elem_of_members_of user_id group_id d :
  user_id ∈ members_of group_id d
  ↔ ∃ gm, gm ∈ group_members d ∧ gm_group_id gm = group_id
          ∧ gm_user_id gm = user_id.
Proof.
  unfold members_of. rewrite elem_of_list_to_set, list_elem_of_fmap. split.
  - intros (gm & -> & Hgm). apply list_elem_of_filter in Hgm as [??]. eauto.
  - intros (gm & Hin & Hg & Hu). exists gm. split; [done|].
    by apply list_elem_of_filter.
Qed.

Lemma elem_of_new_member_rows group user_id group_id member_ids gm :
  gm ∈ new_member_rows group user_id group_id member_ids
  ↔ ∃ key, gm = mkGroupMember group_id (gm_user_id gm) key
           ∧ gm_user_id gm ∈ member_ids ∧ gm_user_id gm ≠ user_id
           ∧ gc_encrypted_keys group !! gm_user_id gm = Some key.
Proof.
  unfold new_member_rows. rewrite list_elem_of_omap. split.
  - intros (m & Hm & Hrow).
    destruct (gc_encrypted_keys group !! m) as [key|] eqn:Hkey; simplify_eq/=.
    case_decide; simplify_eq/=. eauto.
  - intros (key & Hgm & Hin & Hne & Hkey). exists (gm_user_id gm).
    split; [done|]. rewrite Hkey. simpl. rewrite decide_True by done. by f_equal.
Qed.

Lemma get_groups_member user_id w s :
  s ∈ get_groups user_id w → user_id ∈ members_of (gs_group_id s) (db w).
Proof.
  unfold get_groups. intros Hs.
  apply list_elem_of_bind in Hs as (g & Hs & Hg).
  apply list_elem_of_bind in Hs as (gm & Hs & Hgm).
  case_decide as Hjoin; [|by apply not_elem_of_nil in Hs].
  apply list_elem_of_singleton in Hs as ->. simpl.
  apply elem_of_members_of. exists gm. by destruct Hjoin.
Qed.

(** C5. [create_group] returns the group id whoever has a key.  With a group
    id not yet used in [group_members], the members of the new group are
    exactly the ids among the creator and the listed members that have an
    entry in the key map; and the groups listed for a user without key do
    not include the new group. *)
Theorem create_group_membership group user_id group_id w :
  Forall (λ gm, gm_group_id gm ≠ group_id) (group_members (db w)) →
  ∃ w', create_group send_json_ok group user_id group_id w
        = Some (w', Ok group_id)
      ∧ members_of group_id (db w')
        = ({[user_id]} ∪ list_to_set (gc_member_ids group))
          ∩ dom (gc_encrypted_keys group)
      ∧ ∀ skipped, gc_encrypted_keys group !! skipped = None →
          Forall (λ s, gs_group_id s ≠ group_id) (get_groups skipped w').
Proof.
  intros Hfresh. rewrite Forall_forall in Hfresh.
  destruct (create_group_run group user_id group_id w) as (w' & Hrun & Hrows).
  exists w'. split; [done|].
  assert (members_of group_id (db w')
          = ({[user_id]} ∪ list_to_set (gc_member_ids group))
            ∩ dom (gc_encrypted_keys group)) as Hmembers.
  { apply set_eq. intros x.
    rewrite elem_of_members_of, elem_of_intersection, elem_of_union,
      elem_of_singleton, elem_of_list_to_set, elem_of_dom, Hrows.
    split.
    - intros (gm & Hin & Hg & Hx).
      apply elem_of_app in Hin as [Hin|Hin]; [by apply Hfresh in Hin|].
      apply elem_of_app in Hin as [Hin|Hin].
      + unfold creator_row in Hin.
        destruct (gc_encrypted_keys group !! user_id) as [key|] eqn:Hkey;
          [|by apply not_elem_of_nil in Hin].
        apply list_elem_of_singleton in Hin as ->. simpl in *. subst x.
        split; [by left|by exists key].
      + apply elem_of_new_member_rows in Hin as (key & _ & Hm & _ & Hkey).
        subst x. split; [by right|by exists key].
    - intros [Hx [key Hkey]].
      destruct (decide (x = user_id)) as [->|Hne].
      + exists (mkGroupMember group_id user_id key). split; [|done].
        apply elem_of_app. right. apply elem_of_app. left.
        unfold creator_row. rewrite Hkey. by left.
      + destruct Hx as [?|Hx]; [done|].
        exists (mkGroupMember group_id x key). split; [|done].
        apply elem_of_app. right. apply elem_of_app. right.
        apply elem_of_new_member_rows. exists key. done. }
  split; [done|].
  intros skipped Hnone. apply Forall_forall. intros s Hs Heq.
  apply get_groups_member in Hs. rewrite Heq, Hmembers in Hs.
  apply elem_of_intersection in Hs as [_ Hs]. apply elem_of_dom in Hs as [? Hs].
  congruence.
Qed.

Lemma send_group_message_run group_id message user_id w :
  ∃ w', send_group_message send_json_ok group_id message user_id w
        = Some (w', Ok (group_messages_lastrowid (db w) + 1)%Z)
      ∧ frame send_json_ok
          (with_db (insert_group_message group_id user_id
                      (gmc_encrypted_content message) (now w) (db w)) w) w'.
Proof.
  unfold send_group_message.
  set (w1 := with_db _ w).
  edestruct (for_each_total
    (λ member_id, send_to_user send_json_ok member_id
                    (group_message group_id (group_messages_lastrowid (db w1))))
    (λ v, frame send_json_ok w1 v)) as (w' & Hw' & Hframe); [|reflexivity|].
  - intros m v _ Hv.
    destruct (send_to_user_total send_json_ok m
                (group_message group_id (group_messages_lastrowid (db w1))) v)
      as [v' Hv'].
    exists v'. split; [done|]. transitivity v; [done|].
    by apply send_to_user_cascade, cascade_frame in Hv'.
  - exists w'. rewrite Hw'. done.
Qed.

Lemma elem_of_users_profile d d' x :
  profile <$> users d' = profile <$> users d →
  (∃ u, u ∈ users d' ∧ u_user_id u = x) → ∃ u, u ∈ users d ∧ u_user_id u = x.
Proof.
  intros Hprof (u & Hu & Hx).
  assert (profile u ∈ profile <$> users d) as Hin.
  { rewrite <-Hprof. by apply list_elem_of_fmap_2. }
  apply list_elem_of_fmap in Hin as (u0 & Heq & Hu0). exists u0. split; [done|].
  unfold profile in Heq. by simplify_eq.
Qed.

Lemma elem_of_select_group_messages group_id d gm :
  gm ∈ gr_message <$> select_group_messages group_id d
  ↔ gm ∈ group_messages d ∧ gmsg_group_id gm = group_id ∧ sender_registered d gm.
Proof.
  unfold select_group_messages, sender_registered.
  rewrite merge_sort_Permutation, list_elem_of_fmap. split.
  - intros (row & -> & Hrow).
    apply list_elem_of_bind in Hrow as (gm & Hrow & Hgm).
    apply list_elem_of_bind in Hrow as (u & Hrow & Hu).
    case_decide as Hjoin; [|by apply not_elem_of_nil in Hrow].
    apply list_elem_of_singleton in Hrow as ->. simpl. destruct Hjoin. eauto.
  - intros (Hgm & Hg & u & Hu & Hsender).
    exists (mkGroupMessageRow gm (u_display_name u)). split; [done|].
    apply list_elem_of_bind. exists gm. split; [|done].
    apply list_elem_of_bind. exists u. split; [|done].
    rewrite decide_True by done. by left.
Qed.

Lemma select_group_nil group_id user_id d :
  (∀ gm, gm ∈ group_members d → gm_group_id gm = group_id →
         gm_user_id gm ≠ user_id) →
  select_group group_id user_id d = [].
Proof.
  intros Hnone. unfold select_group.
  destruct (_ ≫= _) as [|row rows] eqn:Hsel; [done|]. exfalso.
  assert (row ∈ row :: rows) as Hin by by left. rewrite <-Hsel in Hin.
  apply list_elem_of_bind in Hin as (g & Hin & Hg).
  apply list_elem_of_bind in Hin as (gm & Hin & Hgm).
  case_decide as Hjoin; [|by apply not_elem_of_nil in Hin].
  destruct Hjoin as [[Hgg Hu] Hgid]. eapply Hnone; [done| |done]. congruence.
Qed.

(** Neither posting to a group nor fetching its messages looks at
    [group_members].  For every user id and group id,
    [send_group_message] inserts the row and returns its id; and for every
    caller [get_group_messages] returns the rows of those messages of the
    group whose sender has a row in [users] - the inner join drops the
    others - so a poster with a [users] row finds the message just posted.
    [get_group] raises the 404 error for a caller without membership row. *)
Theorem group_messages_unguarded group_id message user_id w :
  ∃ w', send_group_message send_json_ok group_id message user_id w
        = Some (w', Ok (group_messages_lastrowid (db w) + 1)%Z)
      ∧ group_messages (db w')
        = group_messages (db w) ++ [sent_group_row group_id message user_id w]
      ∧ group_members (db w') = group_members (db w)
      ∧ (∀ caller gm,
           gm ∈ (gr_message ∘ fst) <$> get_group_messages isoformat group_id caller w'
           ↔ gm ∈ group_messages (db w') ∧ gmsg_group_id gm = group_id
             ∧ sender_registered (db w') gm)
      ∧ ((∃ u, u ∈ users (db w) ∧ u_user_id u = user_id) →
         ∀ caller,
           sent_group_row group_id message user_id w
           ∈ (gr_message ∘ fst) <$> get_group_messages isoformat group_id caller w')
      ∧ (∀ caller,
           (∀ gm, gm ∈ group_members (db w') → gm_group_id gm = group_id →
                  gm_user_id gm ≠ caller) →
           get_group group_id caller w' = HTTPException 404 group_not_found).
Proof.
  destruct (send_group_message_run group_id message user_id w)
    as (w' & Hrun & Hframe).
  exists w'. split; [done|].
  pose proof (frame_group_messages _ _ Hframe) as Hrows.
  pose proof (frame_group_members _ _ Hframe) as Hmembers.
  simpl in Hrows, Hmembers.
  assert (∀ caller gm,
            gm ∈ (gr_message ∘ fst) <$> get_group_messages isoformat group_id caller w'
            ↔ gm ∈ group_messages (db w') ∧ gmsg_group_id gm = group_id
              ∧ sender_registered (db w') gm) as Hlist.
  { intros caller gm. unfold get_group_messages.
    rewrite <-list_fmap_compose.
    change (gm ∈ gr_message <$> select_group_messages group_id (db w')
            ↔ gm ∈ group_messages (db w') ∧ gmsg_group_id gm = group_id
              ∧ sender_registered (db w') gm).
    apply elem_of_select_group_messages. }
  split; [done|]. split; [done|]. split; [exact Hlist|]. split.
  - intros Hu caller. apply Hlist. split; [|split; [done|]].
    + rewrite Hrows. apply elem_of_app. right. by left.
    + unfold sender_registered. simpl.
      eapply (elem_of_users_profile (db w') (db w)); [|done].
      symmetry. by destruct Hframe.
  - intros caller Hnone. unfold get_group.
    by rewrite (select_group_nil _ _ _ Hnone).
Qed.

End groups.

(** ** The properties on the sample worlds *)

(** The scenario of the spec's last testable property, with alice and bob:
    the push to bob carries the assigned id and the recipient's ciphertext,
    the row is listed unread, and after bob's [read] event alice is notified
    and the row is listed read. *)
Example end_to_end_scenario :
  let w0 := mkWorld (mkDB [alice; bob] [] 0 [] [] [] [] 0)
                    (<["alice" := 1]> (<["bob" := 2]> ∅)) [] 100 in
  let m1 := mkMessageCreate "bob" "ctB" "ctA" None "never" in
  ∃ w1 w2,
    send_message always_ok m1 "alice" w0 = Some (w1, Ok 1%Z)
    ∧ wire w1 = [mkDelivery "bob" 2 (new_message 1 "alice" "ctB") true]
    ∧ fst <$> get_messages sample_isoformat "bob" "alice" w1
      = [mkMessageRow (mkMessage 1 "alice" "bob" "ctB" "ctA" None "never" false 100)
                      None None None]
    ∧ on_read always_ok (Some "alice") "bob" w1 = Some w2
    ∧ wire w2 = wire w1 ++ [mkDelivery "alice" 1 (messages_read "bob") true]
    ∧ (m_is_read ∘ r_message ∘ fst) <$> get_messages sample_isoformat "bob" "alice" w2
      = [true].
Proof. do 2 eexists. split_and!; vm_compute; reflexivity. Qed.

(** A dead socket of the recipient: the session goes, bob is marked offline,
    alice hears of it, and the sender still gets the id. *)
Example send_to_dead_socket :
  ∃ w', send_message (dead_sockets [2]) good_reply "alice" sample_world
        = Some (w', Ok 4%Z)
      ∧ wire w' = [mkDelivery "bob" 2 (new_message 4 "alice" "re-for-bob") false;
                   mkDelivery "alice" 1 (user_offline "bob") true]
      ∧ active_connections w' !! "bob" = None.
Proof. eexists. split_and!; vm_compute; reflexivity. Qed.

Lemma blocked_send_rejected_witness :
  ("bob", "carol") ∈ blocked_users (db sample_world)
  ∧ send_message always_ok hello_bob "carol" sample_world
    = Some (sample_world, HTTPException 403 blocked_error)
  ∧ get_messages sample_isoformat "bob" "carol" sample_world = [].
Proof.
  assert (("bob", "carol") ∈ blocked_users (db sample_world)) as Hin
    by (simpl; by left).
  split; [exact Hin|].
  destruct (blocked_send_rejected always_ok sample_isoformat hello_bob "carol"
              sample_world Hin) as (w' & Hrun & -> & _).
  split; [exact Hrun|]. vm_compute. reflexivity.
Defined.

Lemma send_result_independent_of_push_witness :
  (("bob", "alice") ∉ blocked_users (db sample_world))
  ∧ ∃ w', send_message (dead_sockets [2]) good_reply "alice" sample_world
          = Some (w', Ok 4%Z)
        ∧ messages (db w')
          = sample_messages ++ [sent_row good_reply "alice" sample_world].
Proof.
  assert (("bob", "alice") ∉ blocked_users (db sample_world)) as Hnot
    by (by apply (bool_decide_unpack _)).
  split; [exact Hnot|].
  destruct (send_result_independent_of_push (dead_sockets [2]) good_reply "alice"
              sample_world Hnot) as (w' & Hrun & Hrows & _).
  exists w'. split; [exact Hrun|exact Hrows].
Defined.

Lemma block_check_one_directional_witness :
  ("bob", "carol") ∈ blocked_users (db sample_world)
  ∧ (("carol", "bob") ∉ blocked_users (db sample_world))
  ∧ ∃ w', send_message always_ok hello_carol "bob" sample_world = Some (w', Ok 4%Z)
        ∧ send_message always_ok hello_carol "bob" (set_blocked [] sample_world)
          = Some (set_blocked [] w', Ok 4%Z).
Proof.
  assert (("bob", "carol") ∈ blocked_users (db sample_world)) as Hin
    by (simpl; by left).
  assert (("carol", "bob") ∉ blocked_users (db sample_world)) as Hnot
    by (by apply (bool_decide_unpack _)).
  split; [exact Hin|]. split; [exact Hnot|].
  destruct (block_check_one_directional always_ok hello_carol "bob" sample_world
              Hin Hnot) as (w' & Hrun & Hfree & _).
  exists w'. split; [exact Hrun|exact Hfree].
Defined.

(** On the store that declares the reference, a reply to the id 999, which
    no message has, is refused: the request ends in the store's exception,
    nothing is committed and nothing is pushed; the reply to the id 2 is
    committed under the id 4. *)
Example dangling_reply_refused :
  send_message_referenced always_ok dangling_reply "alice" sample_world
  = Some (sample_world, IntegrityError)
  ∧ ∃ w', send_message_referenced always_ok good_reply "alice" sample_world
          = Some (w', Responded (Ok 4%Z))
        ∧ messages (db w')
          = sample_messages ++ [sent_row good_reply "alice" sample_world].
Proof. split; [|eexists]; split_and?; vm_compute; reflexivity. Qed.

Lemma reply_to_id_stored_as_supplied_witness :
  ∃ w',
    send_message always_ok good_reply "alice" sample_world = Some (w', Ok 4%Z)
    ∧ messages (db w') = sample_messages ++ [sent_row good_reply "alice" sample_world]
    ∧ m_reply_to_id (sent_row good_reply "alice" sample_world) = Some 2%Z
    ∧ Forall (λ m, reply_resolves (messages (db w')) (m_reply_to_id m))
             (messages (db w')).
Proof.
  destruct (send_message always_ok good_reply "alice" sample_world)
    as [[w' r]|] eqn:Hrun; [|by vm_compute in Hrun].
  assert (r = Ok 4%Z) as -> by (vm_compute in Hrun; congruence).
  destruct (reply_to_id_stored_as_supplied always_ok good_reply "alice"
              sample_world w' (Ok 4%Z) Hrun) as [Hrow Hkeeps].
  destruct (Hrow 4%Z eq_refl) as (Hrows & _ & Hreply).
  exists w'. split; [done|]. split; [exact Hrows|]. split; [exact Hreply|].
  apply Hkeeps; by apply (bool_decide_unpack _).
Defined.

Lemma create_group_membership_witness :
  Forall (λ gm, gm_group_id gm ≠ "g2") (group_members (db sample_world))
  ∧ ∃ w', create_group (dead_sockets [2]) sample_group "alice" "g2" sample_world
          = Some (w', Ok "g2")
        ∧ members_of "g2" (db w') = {["alice"; "bob"]}
        ∧ get_groups "carol" w' = [].
Proof.
  assert (Forall (λ gm, gm_group_id gm ≠ "g2") (group_members (db sample_world)))
    as Hfresh by (by apply (bool_decide_unpack _)).
  split; [exact Hfresh|].
  destruct (create_group_membership (dead_sockets [2]) sample_group "alice" "g2"
              sample_world Hfresh) as (w' & Hrun & Hmembers & _).
  exists w'. split; [exact Hrun|].
  assert (create_group (dead_sockets [2]) sample_group "alice" "g2" sample_world
          = Some (w', Ok "g2")) as Hcopy by exact Hrun.
  vm_compute in Hcopy. injection Hcopy as <-.
  split; vm_compute; reflexivity.
Defined.

(** C9. Where the code leaves the claim: in the existing group g1 the
    message that a user without [users] row posts is inserted and its id
    returned, and [get_group_messages] - "Get all messages in a group" -
    then returns no message, to the poster or to the member alice: its inner
    join with [users] drops the row. *)
Lemma unregistered_sender_not_listed :
  "g1" ∈ g_group_id <$> chat_groups (db sample_world)
  ∧ ∃ w',
    send_group_message always_ok "g1" (mkGroupMessageCreate "ct") "mallory"
      sample_world = Some (w', Ok 1%Z)
    ∧ group_messages (db w') = [mkGroupMessage 1 "g1" "mallory" "ct" 100]
    ∧ get_group_messages sample_isoformat "g1" "mallory" w' = []
    ∧ get_group_messages sample_isoformat "g1" "alice" w' = [].
Proof.
  split; [by apply (bool_decide_unpack _)|].
  eexists. split_and!; vm_compute; reflexivity.
Qed.

(** A contact whose session a cascade has dropped is not tried any more:
    bob and carol, both on dead sockets and contacts of each other, are
    contacts of alice; when alice connects, the failed send to bob makes the
    server tell carol that bob is offline, which fails and drops carol, so
    carol is never sent alice's [user_online]. *)
Example dropped_contact_is_not_tried :
  let ms := [ mkMessage 1 "alice" "bob" "a" "b" None "never" false 1;
              mkMessage 2 "alice" "carol" "c" "d" None "never" false 2;
              mkMessage 3 "bob" "carol" "e" "f" None "never" false 3 ] in
  let w := mkWorld (mkDB [alice; bob; carol] ms 3 [] [] [] [] 0)
                   (<["bob" := 2]> (<["carol" := 3]> ∅)) [] 100 in
  ∃ w', connect (dead_sockets [2; 3]) 1 "alice" w = Some w'
      ∧ wire w' = [ mkDelivery "bob" 2 (user_online "alice") false;
                    mkDelivery "alice" 1 (user_offline "bob") true;
                    mkDelivery "carol" 3 (user_offline "bob") false;
                    mkDelivery "alice" 1 (user_offline "carol") true ]
      ∧ attempts "carol" (user_online "alice") (wire w') = 0
      ∧ active_connections w' = {["alice" := 1]}.
Proof. eexists. split_and!; vm_compute; reflexivity. Qed.

(** * Further properties of the endpoints *)

(** ** Fetching, sending and deleting direct messages *)

Section direct_messages.
Variable send_json_ok : nat → WebSocket → bool.
Variable isoformat : Z → string.

Lemma left_join_reply_fields ms m row :
  row ∈ left_join_reply ms m →
  r_message row = m
  ∧ ((reply_resolves ms (m_reply_to_id m) → m_reply_to_id m = None)
     ∧ r_reply_encrypted_content row = None
     ∧ r_reply_encrypted_for_sender row = None
     ∧ r_reply_sender_id row = None
     ∨ ∃ r, r ∈ ms ∧ m_reply_to_id m = Some (m_id r)
            ∧ r_reply_encrypted_content row = Some (m_encrypted_content r)
            ∧ r_reply_encrypted_for_sender row = Some (m_encrypted_for_sender r)
            ∧ r_reply_sender_id row = Some (m_sender_id r)).
Proof.
  unfold left_join_reply.
  destruct (filter _ ms) as [|r0 rs] eqn:Hf.
  - intros ->%list_elem_of_singleton. split; [done|]. left. split; [|done].
    simpl. destruct (m_reply_to_id m) as [i|] eqn:Hi; [|done]. simpl.
    intros (r & -> & Hr)%list_elem_of_fmap.
    exfalso. by apply (filter_nil_not_elem_of _ _ r Hf).
  - intros (r & -> & Hr)%list_elem_of_fmap. split; [done|]. right.
    rewrite <-Hf in Hr. apply list_elem_of_filter in Hr as [Hreply Hr].
    exists r. done.
Qed.

Lemma elem_of_select_conversation_row a b d row :
  row ∈ select_conversation a b d →
  between a b (r_message row) ∧ r_message row ∈ messages d
  ∧ row ∈ left_join_reply (messages d) (r_message row).
Proof.
  unfold select_conversation. rewrite merge_sort_Permutation.
  intros [Hab Hrow]%list_elem_of_filter.
  apply list_elem_of_bind in Hrow as (m & Hrow & Hm).
  pose proof (left_join_reply_message _ _ _ Hrow) as Heq.
  rewrite Heq in Hab |- *. by split_and!.
Qed.

(** X1. Every row of a fetched conversation carries the reply it answers:
    a row whose [reply_to_id] names a stored message has that message's two
    ciphertexts and sender in its reply columns; a row without
    [reply_to_id], or with one that names no stored message, has the three
    columns empty - and is returned all the same. *)
Theorem reply_enrichment a b w :
  Forall (λ row,
            let ms := messages (db w) in
            (reply_resolves ms (m_reply_to_id (r_message row)) →
             m_reply_to_id (r_message row) = None)
            ∧ r_reply_encrypted_content row = None
            ∧ r_reply_encrypted_for_sender row = None
            ∧ r_reply_sender_id row = None
            ∨ ∃ r, r ∈ ms ∧ m_reply_to_id (r_message row) = Some (m_id r)
                   ∧ r_reply_encrypted_content row = Some (m_encrypted_content r)
                   ∧ r_reply_encrypted_for_sender row
                     = Some (m_encrypted_for_sender r)
                   ∧ r_reply_sender_id row = Some (m_sender_id r))
         (fst <$> get_messages isoformat a b w).
Proof.
  unfold get_messages. rewrite <-list_fmap_compose. apply Forall_fmap.
  apply Forall_forall. intros row Hrow. simpl.
  apply elem_of_select_conversation_row in Hrow as (_ & _ & Hrow).
  by apply left_join_reply_fields in Hrow as [_ ?].
Qed.

(** X2. A message sent by an unblocked sender is at once in the conversation
    of the two users, fetched from either end: under the returned id, with
    both ciphertexts as given, unread. *)
Theorem sent_message_is_listed message sender_id w :
  (mc_recipient_id message, sender_id) ∉ blocked_users (db w) →
  ∃ w' message_id m,
    send_message send_json_ok message sender_id w = Some (w', Ok message_id)
    ∧ m ∈ (r_message ∘ fst)
            <$> get_messages isoformat (mc_recipient_id message) sender_id w'
    ∧ m ∈ (r_message ∘ fst)
            <$> get_messages isoformat sender_id (mc_recipient_id message) w'
    ∧ m_id m = message_id
    ∧ m_sender_id m = sender_id
    ∧ m_encrypted_content m = mc_encrypted_content message
    ∧ m_encrypted_for_sender m = mc_encrypted_for_sender message
    ∧ m_is_read m = false.
Proof.
  intros Hnot.
  destruct (send_message_unblocked_run send_json_ok message sender_id w Hnot)
    as (w' & Hrun & Hrows).
  exists w', (messages_lastrowid (db w) + 1)%Z, (sent_row message sender_id w).
  split; [done|].
  assert (∀ a b, between a b (sent_row message sender_id w) →
            sent_row message sender_id w
            ∈ (r_message ∘ fst) <$> get_messages isoformat a b w') as Hlisted.
  { intros a b Hab. unfold get_messages. rewrite <-list_fmap_compose.
    change (sent_row message sender_id w
            ∈ r_message <$> select_conversation b a (db w')).
    apply elem_of_select_conversation. split.
    - rewrite Hrows. apply elem_of_app. right. by left.
    - by apply between_comm. }
  split; [apply Hlisted; by right|]. split; [apply Hlisted; by left|]. done.
Qed.

Lemma select_conversation_nil a b d :
  Forall (λ m, ¬ between a b m) (messages d) → select_conversation a b d = [].
Proof.
  intros Hnone. apply elem_of_nil_inv. intros row Hrow.
  apply elem_of_select_conversation_row in Hrow as (Hab & Hin & _).
  rewrite Forall_forall in Hnone. by apply (Hnone _ Hin).
Qed.

Lemma elem_of_deleted a b w m :
  m ∈ messages (db (delete_messages a b w))
  ↔ m ∈ messages (db w) ∧ ¬ between a b m.
Proof.
  unfold delete_messages. simpl. rewrite list_elem_of_filter.
  rewrite (between_comm b a). tauto.
Qed.

(** X3. Deleting a conversation removes the rows of both directions, for
    both users: fetched from either end the conversation is then empty.
    The result is the same whoever of the two asks, deleting again changes
    nothing, and every other message stays: any conversation lists afterwards
    the messages it listed before, less those between the two users. *)
Theorem delete_messages_clears_pair a b w :
  get_messages isoformat a b (delete_messages a b w) = []
  ∧ get_messages isoformat b a (delete_messages a b w) = []
  ∧ delete_messages a b w = delete_messages b a w
  ∧ delete_messages a b (delete_messages a b w) = delete_messages a b w
  ∧ ∀ c d m,
      m ∈ (r_message ∘ fst) <$> get_messages isoformat c d (delete_messages a b w)
      ↔ m ∈ (r_message ∘ fst) <$> get_messages isoformat c d w
        ∧ ¬ between a b m.
Proof.
  assert (Forall (λ m, ¬ between a b m) (messages (db (delete_messages a b w))))
    as Hnone.
  { apply Forall_forall. intros m Hm. by apply elem_of_deleted in Hm as [_ ?]. }
  split; [|split; [|split; [|split]]].
  - unfold get_messages. rewrite select_conversation_nil; [done|].
    eapply Forall_impl; [exact Hnone|]. intros m Hm. by rewrite between_comm.
  - unfold get_messages. by rewrite select_conversation_nil.
  - unfold delete_messages. do 2 f_equal. apply list_filter_iff.
    intros m. by rewrite between_comm.
  - unfold delete_messages. simpl. by rewrite list_filter_filter_l.
  - intros c d m. unfold get_messages. rewrite <-!list_fmap_compose.
    change (m ∈ r_message <$> select_conversation d c (db (delete_messages a b w))
            ↔ m ∈ r_message <$> select_conversation d c (db w)
              ∧ ¬ between a b m).
    rewrite !elem_of_select_conversation, elem_of_deleted. tauto.
Qed.

Lemma NoDup_fmap_elem_inj {A B} (f : A → B) (l : list A) x y :
  NoDup (f <$> l) → x ∈ l → y ∈ l → f x = f y → x = y.
Proof.
  induction l as [|z l IH]; [by intros _ ?%not_elem_of_nil|].
  rewrite fmap_cons, NoDup_cons. intros [Hz Hl] Hx Hy Heq.
  apply elem_of_cons in Hx as [->|Hx]; apply elem_of_cons in Hy as [->|Hy].
  - done.
  - exfalso. apply Hz. rewrite Heq. by apply list_elem_of_fmap_2.
  - exfalso. apply Hz. rewrite <-Heq. by apply list_elem_of_fmap_2.
  - by apply IH.
Qed.

(** X4. With distinct ids, deleting a conversation blanks the reply columns
    of the messages that answered one of its messages from another
    conversation: such a message is afterwards fetched with its
    [reply_to_id] still set and the three reply columns empty. *)
Theorem deleted_reply_target_blanks a b c d w r m :
  NoDup (m_id <$> messages (db w)) →
  r ∈ messages (db w) → between a b r →
  m_reply_to_id m = Some (m_id r) →
  Forall (λ row, r_message row = m →
                 r_reply_encrypted_content row = None
                 ∧ r_reply_encrypted_for_sender row = None
                 ∧ r_reply_sender_id row = None)
         (fst <$> get_messages isoformat c d (delete_messages a b w)).
Proof.
  intros Hids Hr Hab Hreply.
  unfold get_messages. rewrite <-list_fmap_compose. apply Forall_fmap.
  apply Forall_forall. intros row Hrow Hm. simpl in *.
  apply elem_of_select_conversation_row in Hrow as (_ & _ & Hrow).
  apply left_join_reply_fields in Hrow as [_ [(_ & ?)|(r' & Hr' & Hreply' & _)]];
    [done|exfalso].
  apply elem_of_deleted in Hr' as [Hr' Hnot].
  rewrite Hm, Hreply in Hreply'. injection Hreply' as Hid.
  assert (r = r') as <- by by eapply (NoDup_fmap_elem_inj m_id).
  done.
Qed.

End direct_messages.

(** ** Users *)

Section user_endpoints.
Variable send_json_ok : nat → WebSocket → bool.

Lemma select_user_nil user_id d :
  select_user user_id d = [] ↔ ¬ registered d user_id.
Proof.
  unfold select_user, registered. split.
  - intros Hnil (u & Hid & Hu)%list_elem_of_fmap.
    by apply (filter_nil_not_elem_of _ _ u Hnil).
  - intros Hnot. apply elem_of_nil_inv. intros u [Hid Hu]%list_elem_of_filter.
    apply Hnot. rewrite <-Hid. by apply list_elem_of_fmap_2.
Qed.

Lemma select_user_app user_id d us :
  select_user user_id (with_users (users d ++ us) d)
  = select_user user_id d ++ filter (λ u, u_user_id u = user_id) us.
Proof. unfold select_user. simpl. apply filter_app. Qed.

(** X5. Registering an id that no user has succeeds, and the user is then
    found: [get_user] returns the id with the public key and the display
    name just registered, [check_user_exists] says yes, and what both
    return for any other id is what they returned before. *)
Theorem registered_user_is_found user w :
  ¬ registered (db w) (ur_user_id user) →
  ∃ w' found,
    register_user user w = (w', Ok (ur_user_id user))
    ∧ get_user (ur_user_id user) w' = Ok found
    ∧ up_user_id found = ur_user_id user
    ∧ up_public_key found = ur_public_key user
    ∧ up_display_name found = ur_display_name user
    ∧ check_user_exists (ur_user_id user) w' = true
    ∧ ∀ other, other ≠ ur_user_id user →
        get_user other w' = get_user other w
        ∧ check_user_exists other w' = check_user_exists other w.
Proof.
  intros Hnew. apply select_user_nil in Hnew.
  unfold register_user. rewrite Hnew. eexists _, _. split; [done|].
  unfold get_user, check_user_exists. simpl db.
  split.
  { rewrite select_user_app, Hnew. simpl.
    rewrite filter_cons_True by done. done. }
  do 3 (split; [done|]). split.
  - rewrite select_user_app, Hnew. simpl.
    rewrite filter_cons_True by done. done.
  - intros other Hne. rewrite !select_user_app. simpl.
    rewrite filter_cons_False by (simpl; congruence).
    rewrite filter_nil, app_nil_r. done.
Qed.

(** X6. An id can be registered once.  After any registration attempt for an
    id, a registration of the same id is rejected with the 400 error and
    changes nothing: the user found under the id, public key included, stays
    the one found before. *)
Theorem second_registration_rejected first second w :
  ur_user_id second = ur_user_id first →
  let w1 := (register_user first w).1 in
  registered (db w1) (ur_user_id first)
  ∧ register_user second w1 = (w1, HTTPException 400 user_already_exists)
  ∧ get_user (ur_user_id first) (register_user second w1).1
    = get_user (ur_user_id first) w1.
Proof.
  intros Hid w1.
  assert (registered (db w1) (ur_user_id first)) as Hreg.
  { unfold w1, register_user.
    destruct (select_user (ur_user_id first) (db w)) as [|u us] eqn:Hsel; simpl.
    - unfold registered. simpl. rewrite fmap_app. apply elem_of_app. right.
      by left.
    - assert (u ∈ select_user (ur_user_id first) (db w)) as Hu
        by (rewrite Hsel; by left).
      apply list_elem_of_filter in Hu as [Hu Hin]. unfold registered.
      rewrite <-Hu. by apply list_elem_of_fmap_2. }
  split; [done|].
  assert (register_user second w1 = (w1, HTTPException 400 user_already_exists))
    as Hrej.
  { unfold register_user. rewrite Hid.
    destruct (select_user (ur_user_id first) (db w1)) eqn:Hsel; [|done].
    apply select_user_nil in Hsel. done. }
  split; [done|]. by rewrite Hrej.
Qed.

(** X8. [get_user] and [check_user_exists] agree: an id with a row in [users]
    is found, with the public columns of a row of that id, and exists; an id
    without one gets the 404 error and does not exist. *)
Theorem get_user_found_iff user_id w :
  (registered (db w) user_id →
   check_user_exists user_id w = true
   ∧ ∃ u, u ∈ users (db w) ∧ u_user_id u = user_id
          ∧ get_user user_id w
            = Ok (mkUserPublic user_id (u_public_key u) (u_display_name u)
                               (u_avatar u)))
  ∧ (¬ registered (db w) user_id →
     check_user_exists user_id w = false
     ∧ get_user user_id w = HTTPException 404 user_not_found).
Proof.
  unfold get_user, check_user_exists. split.
  - intros Hreg.
    destruct (select_user user_id (db w)) as [|u us] eqn:Hsel.
    { apply select_user_nil in Hsel. done. }
    split; [done|]. exists u.
    assert (u ∈ select_user user_id (db w)) as Hu by (rewrite Hsel; by left).
    apply list_elem_of_filter in Hu as [Hid Hu]. by rewrite Hid.
  - intros Hnot. apply select_user_nil in Hnot. by rewrite Hnot.
Qed.

Lemma select_user_fmap user_id d (f : User → User) :
  (∀ u, u_user_id (f u) = u_user_id u) →
  select_user user_id (with_users (f <$> users d) d)
  = f <$> select_user user_id d.
Proof.
  intros Hf. unfold select_user. simpl.
  induction (users d) as [|u us IH]; [done|].
  rewrite fmap_cons, !filter_cons, Hf. case_decide; [|done].
  by rewrite fmap_cons, IH.
Qed.

(** X7. [update_user] touches the display name and the avatar of the
    addressed user and nothing else.  A field left out of the request stays;
    a field given as the empty string is cleared; the id and the public key
    never change; any other user is found as before; and for an id that no
    user has the store is left as it was - the handler reports no error. *)
Theorem update_user_effect user_id update w :
  get_user user_id (update_user user_id update w)
  = match get_user user_id w with
    | Ok p =>
        Ok (mkUserPublic (up_user_id p) (up_public_key p)
              (match uu_display_name update with
               | Some value => if decide (value = "") then None else Some value
               | None => up_display_name p
               end)
              (match uu_avatar update with
               | Some value => if decide (value = "") then None else Some value
               | None => up_avatar p
               end))
    | HTTPException status detail => HTTPException status detail
    end
  ∧ (∀ other, other ≠ user_id →
       get_user other (update_user user_id update w) = get_user other w)
  ∧ (¬ registered (db w) user_id → update_user user_id update w = w).
Proof.
  set (f := λ u, if decide (u_user_id u = user_id)
                 then apply_update update u else u).
  assert (∀ u, u_user_id (f u) = u_user_id u) as Hf
    by (intros u; unfold f; by case_decide).
  assert (update_user user_id update w
          = with_db (with_users (f <$> users (db w)) (db w)) w
          ∨ (uu_display_name update = None ∧ uu_avatar update = None
             ∧ update_user user_id update w = w)) as Hcases.
  { unfold update_user.
    destruct (uu_display_name update), (uu_avatar update); auto. }
  split; [|split].
  - destruct Hcases as [->|(Hd & Ha & ->)].
    + unfold get_user. simpl db. rewrite (select_user_fmap _ _ f Hf).
      destruct (select_user user_id (db w)) as [|u us] eqn:Hsel; [done|].
      assert (u ∈ select_user user_id (db w)) as Hu by (rewrite Hsel; by left).
      apply list_elem_of_filter in Hu as [Hid _].
      rewrite fmap_cons. simpl. unfold f. rewrite decide_True by done.
      unfold apply_update, or_null. simpl. done.
    + rewrite Hd, Ha. by destruct (get_user user_id w) as [[]|].
  - intros other Hne. destruct Hcases as [->|(_ & _ & ->)]; [|done].
    unfold get_user. simpl db. rewrite (select_user_fmap _ _ f Hf).
    destruct (select_user other (db w)) as [|u us] eqn:Hsel; [done|].
    assert (u ∈ select_user other (db w)) as Hu by (rewrite Hsel; by left).
    apply list_elem_of_filter in Hu as [Hid _].
    rewrite fmap_cons. simpl. unfold f. rewrite decide_False by congruence. done.
  - intros Hnot. destruct Hcases as [->|(_ & _ & ->)]; [|done].
    assert (f <$> users (db w) = users (db w)) as ->.
    { rewrite <-(list_fmap_id (users (db w))) at 2.
      apply Forall_fmap_ext_1, Forall_forall. intros u Hu. unfold f.
      rewrite decide_False; [done|]. intros Hid. apply Hnot.
      rewrite <-Hid. by apply list_elem_of_fmap_2. }
    by destruct w as [[]].
Qed.

End user_endpoints.

(** ** Sessions *)

Section sessions.
Variable send_json_ok : nat → WebSocket → bool.

Lemma set_online_other flag t user_id x us :
  user_id ≠ x →
  filter (λ u, u_user_id u = x) (set_online flag t user_id us)
  = filter (λ u, u_user_id u = x) us.
Proof.
  intros Hne. unfold set_online. induction us as [|u us IH]; [done|].
  rewrite fmap_cons, !filter_cons.
  destruct (decide (u_user_id u = user_id)) as [Hu|Hu]; simpl.
  - rewrite !decide_False by congruence. done.
  - case_decide; by rewrite IH.
Qed.

(** A cascade does not write the rows of a user whose socket never raises. *)
Lemma cascade_keeps_rows w w' x ws :
  cascade send_json_ok w w' →
  active_connections w !! x = Some ws → reliable send_json_ok ws →
  filter (λ u, u_user_id u = x) (users (db w'))
  = filter (λ u, u_user_id u = x) (users (db w)).
Proof.
  induction 1 as [w|w v w' Hstep _ IH]; intros Hx Hrel; [done|].
  pose proof (push_step_frame _ _ _ Hstep) as Hframe.
  rewrite IH; [|by destruct Hframe; eauto|done].
  destruct Hstep as [w u ws' ev Hu Hok|w u ws' ev Hu Hok]; [done|].
  simpl. apply set_online_other. intros ->. simplify_eq.
  rewrite Hrel in Hok. done.
Qed.

(** X15. A connection on a socket that does not raise always ends with the
    user registered on that socket and marked online, last seen at the time
    of the connection - whatever sessions it finds dead among the user's
    contacts on the way. *)
Theorem connect_marks_online websocket user_id w :
  reliable send_json_ok websocket →
  ∃ w', connect send_json_ok websocket user_id w = Some w'
      ∧ active_connections w' !! user_id = Some websocket
      ∧ Forall (λ u, u_user_id u = user_id →
                     u_is_online u = true ∧ u_last_seen u = Some (now w))
               (users (db w'))
      ∧ messages (db w') = messages (db w).
Proof.
  intros Hrel.
  destruct (broadcast_status_total send_json_ok user_id true
              (update_status true user_id (register websocket user_id w)))
    as [w' Hw'].
  exists w'. split; [done|].
  apply broadcast_status_cascade in Hw'.
  pose proof (cascade_frame _ _ _ Hw') as [T _ _ _ R _ _].
  split; [|split].
  - apply R; [|done]. simpl. apply lookup_insert_eq.
  - apply Forall_forall. intros u Hu Hid.
    assert (u ∈ filter (λ u, u_user_id u = user_id) (users (db w'))) as Hin
      by (by apply list_elem_of_filter).
    rewrite (cascade_keeps_rows _ _ user_id websocket Hw') in Hin;
      [|simpl; apply lookup_insert_eq|done].
    apply list_elem_of_filter in Hin as [_ Hin]. simpl in Hin.
    unfold set_online in Hin. apply list_elem_of_fmap in Hin as (u0 & -> & _).
    case_decide; [done|]. by rewrite Hid in *.
  - by apply (f_equal messages) in T.
Qed.

(** X14. [disconnect] always returns, also for a user without session.
    Afterwards the user has no session - whatever socket was registered for
    the user, the one of a later connection included - and every row of the
    user is marked offline; no session is added, the sessions of other users
    on sockets that do not raise are kept, and no message is touched. *)
Theorem disconnect_unregisters user_id w :
  ∃ w', disconnect send_json_ok user_id w = Some w'
      ∧ active_connections w' !! user_id = None
      ∧ Forall (λ u, u_user_id u = user_id → u_is_online u = false)
               (users (db w'))
      ∧ active_connections w' ⊆ active_connections w
      ∧ (∀ other ws, other ≠ user_id →
           active_connections w !! other = Some ws →
           reliable send_json_ok ws →
           active_connections w' !! other = Some ws)
      ∧ messages (db w') = messages (db w).
Proof.
  destruct (disconnect_total send_json_ok user_id w) as [w' Hw'].
  exists w'. split; [done|].
  apply disconnect_cascade, cascade_frame in Hw'.
  destruct Hw' as [T _ _ C R O _]. simpl in *.
  split; [|split; [|split; [|split]]].
  - eapply lookup_weaken_None; [|exact C]. apply lookup_delete_eq.
  - apply O, set_online_false_self.
  - etransitivity; [exact C|]. apply delete_subseteq.
  - intros other ws Hne Hws Hrel. apply R; [|done].
    by rewrite lookup_delete_ne.
  - by apply (f_equal messages) in T.
Qed.

(** X17. A push always returns, however many sockets are dead: the nested
    disconnects end because each removes a session.  Any fuel that covers
    the number of sessions gives the same world; no session is added; a
    session is removed only after a send to it has raised; and a session on
    a socket that does not raise is kept. *)
Theorem push_always_returns user_id message w :
  ∃ w', send_to_user send_json_ok user_id message w = Some w'
      ∧ (∀ fuel, size (active_connections w) ≤ fuel →
           send_to_user_fuel send_json_ok fuel user_id message w = Some w')
      ∧ size (active_connections w') ≤ size (active_connections w)
      ∧ (∀ other ws, active_connections w !! other = Some ws →
           reliable send_json_ok ws →
           active_connections w' !! other = Some ws)
      ∧ ∃ sent, wire w' = wire w ++ sent
              ∧ ∀ other, is_Some (active_connections w !! other) →
                  active_connections w' !! other = None →
                  ∃ d, d ∈ sent ∧ d_user d = other ∧ d_ok d = false.
Proof.
  destruct (send_to_user_total send_json_ok user_id message w) as [w' Hw'].
  exists w'. split; [done|]. split.
  { intros fuel Hfuel. by rewrite send_to_user_fuel_enough. }
  apply send_to_user_cascade, cascade_frame in Hw'.
  pose proof (frame_size _ _ _ Hw') as Hsize.
  destruct Hw' as [_ _ _ _ R _ (sent & Hwire & _ & Hdrop)].
  split; [done|]. split; [done|]. by exists sent.
Qed.

(** X13. What a direct-message send puts on the wire: nothing when the
    recipient has no session; one [new_message] event - the assigned id, the
    sender, the recipient's ciphertext - on the recipient's socket when that
    takes it; and in every case nothing but that event, addressed to the
    recipient, and offline notices. *)
Theorem send_pushes_notification_only message sender_id w :
  (mc_recipient_id message, sender_id) ∉ blocked_users (db w) →
  let recipient_id := mc_recipient_id message in
  let event := new_message (messages_lastrowid (db w) + 1) sender_id
                           (mc_encrypted_content message) in
  ∃ w' sent,
    send_message send_json_ok message sender_id w
    = Some (w', Ok (messages_lastrowid (db w) + 1)%Z)
    ∧ wire w' = wire w ++ sent
    ∧ Forall (λ d, send_payload event (d_event d)
                   ∧ (d_event d = event → d_user d = recipient_id)) sent
    ∧ attempts recipient_id event sent
      = match active_connections w !! recipient_id with Some _ => 1 | None => 0 end
    ∧ (active_connections w !! recipient_id = None → sent = [])
    ∧ (∀ ws, active_connections w !! recipient_id = Some ws →
             send_json_ok (length (wire w)) ws = true →
             sent = [mkDelivery recipient_id ws event true]).
Proof.
  intros Hnot recipient_id event.
  rewrite (send_message_unblocked _ _ _ _ Hnot). fold recipient_id event.
  set (w1 := with_db _ w).
  destruct (send_to_user_total send_json_ok recipient_id event w1) as [w' Hw'].
  rewrite Hw'. simpl.
  apply send_to_user_spec in Hw' as [_ Htrace]. unfold push_trace in Htrace.
  change (active_connections w1) with (active_connections w) in Htrace.
  change (wire w1) with (wire w) in Htrace.
  destruct (active_connections w !! recipient_id) as [ws|] eqn:Hreg.
  - destruct Htrace as (rest & Hwire & Hok & Hrest).
    exists w'. eexists. split; [done|]. split; [exact Hwire|].
    assert (Forall (λ d, send_payload event (d_event d)
                         ∧ (d_event d = event → d_user d = recipient_id)) rest)
      as Hrest'.
    { eapply Forall_impl; [exact Hrest|]. intros d (x & Hd & _). split.
      - right. eauto.
      - rewrite Hd. done. }
    split; [|split; [|split]].
    + constructor; [|done]. split; [by left|done].
    + rewrite attempts_cons, decide_True by done.
      rewrite (attempts_offline_notices _ _ w1 rest); [done| |done].
      by intros x.
    + done.
    + intros ws' [= <-] Hws. rewrite Hws in *. by rewrite Hok.
  - subst w'. exists w1, []. rewrite app_nil_r.
    split; [done|]. split; [done|]. split; [done|]. done.
Qed.

(** X18. The [typing] and [read] events of a session.  Without a recipient
    (resp. sender) id, or with an empty one, nothing happens at all.
    Otherwise the handler returns, and the named user, when registered on a
    socket that takes the event, is sent exactly one event carrying the
    session's own user id; [typing] leaves every message as it was. *)
Theorem inbound_events_notify user_id w :
  (∀ target, truthy target = None →
     on_typing send_json_ok target user_id w = Some w
     ∧ on_read send_json_ok target user_id w = Some w)
  ∧ (∀ target peer, truthy target = Some peer →
       ∃ w1 w2,
         on_typing send_json_ok target user_id w = Some w1
         ∧ on_read send_json_ok target user_id w = Some w2
         ∧ messages (db w1) = messages (db w)
         ∧ (active_connections w !! peer = None →
            w1 = w ∧ wire w2 = wire w)
         ∧ (∀ ws, active_connections w !! peer = Some ws →
                  send_json_ok (length (wire w)) ws = true →
                  wire w1 = wire w ++ [mkDelivery peer ws (typing user_id) true]
                  ∧ wire w2
                    = wire w ++ [mkDelivery peer ws (messages_read user_id) true])).
Proof.
  split.
  - intros target Hnone. unfold on_typing, on_read. by rewrite Hnone.
  - intros target peer Hpeer. unfold on_typing, on_read. rewrite Hpeer.
    set (v := with_db (markRead peer user_id (db w)) w).
    destruct (send_to_user_total send_json_ok peer (typing user_id) w) as [w1 Hw1].
    destruct (send_to_user_total send_json_ok peer (messages_read user_id) v)
      as [w2 Hw2].
    exists w1, w2. split; [done|]. split; [done|].
    split.
    { by apply send_to_user_cascade, cascade_frame, frame_messages in Hw1. }
    rewrite send_to_user_eq in Hw1, Hw2.
    change (active_connections v) with (active_connections w) in Hw2.
    change (wire v) with (wire w) in Hw2.
    split.
    + intros Hnone. rewrite Hnone in Hw1, Hw2. by simplify_eq.
    + intros ws Hws Hok. rewrite Hws, Hok in Hw1, Hw2. by simplify_eq.
Qed.

End sessions.

Lemma filter_all {A} (P : A → Prop) `{!∀ x, Decision (P x)} (l : list A) :
  Forall P l → filter P l = l.
Proof.
  induction 1 as [|x l Hx _ IH]; [done|].
  by rewrite filter_cons_True, IH.
Qed.

Lemma filter_none {A} (P : A → Prop) `{!∀ x, Decision (P x)} (l : list A) :
  Forall (λ x, ¬ P x) l → filter P l = [].
Proof.
  induction 1 as [|x l Hx _ IH]; [done|].
  by rewrite filter_cons_False, IH.
Qed.

(** ** Groups *)

Section group_endpoints.
Variable send_json_ok : nat → WebSocket → bool.

Lemma elem_of_select_group group_id user_id d row :
  row ∈ select_group group_id user_id d
  ↔ ∃ g gm, g ∈ chat_groups d ∧ gm ∈ group_members d
            ∧ g_group_id g = group_id ∧ gm_group_id gm = group_id
            ∧ gm_user_id gm = user_id
            ∧ row = mkGroupDetail g (gm_encrypted_group_key gm)
                                  (member_count group_id d).
Proof.
  unfold select_group. rewrite list_elem_of_bind. split.
  - intros (g & Hrow & Hg). apply list_elem_of_bind in Hrow as (gm & Hrow & Hgm).
    case_decide as Hjoin; [|by apply not_elem_of_nil in Hrow].
    apply list_elem_of_singleton in Hrow as ->.
    destruct Hjoin as [[Hgg Hu] Hgid]. exists g, gm.
    split_and!; try done; congruence.
  - intros (g & gm & Hg & Hgm & Hgid & Hgg & Hu & ->).
    exists g. split; [|done]. apply list_elem_of_bind. exists gm.
    split; [|done]. rewrite decide_True; [|split_and!; congruence].
    rewrite Hgid. by left.
Qed.

Lemma elem_of_get_groups user_id w s :
  s ∈ get_groups user_id w
  ↔ ∃ g gm, g ∈ chat_groups (db w) ∧ gm ∈ group_members (db w)
            ∧ g_group_id g = gm_group_id gm ∧ gm_user_id gm = user_id
            ∧ s = mkGroupSummary (g_group_id g) (g_name g) (g_avatar g)
                                 (member_count (g_group_id g) (db w)).
Proof.
  unfold get_groups. rewrite list_elem_of_bind. split.
  - intros (g & Hrow & Hg). apply list_elem_of_bind in Hrow as (gm & Hrow & Hgm).
    case_decide as Hjoin; [|by apply not_elem_of_nil in Hrow].
    apply list_elem_of_singleton in Hrow as ->. destruct Hjoin.
    exists g, gm. done.
  - intros (g & gm & Hg & Hgm & Hgg & Hu & ->).
    exists g. split; [|done]. apply list_elem_of_bind. exists gm.
    split; [|done]. rewrite decide_True by done. by left.
Qed.

Lemma get_group_head group_id user_id w :
  match get_group group_id user_id w with
  | Ok detail => detail ∈ select_group group_id user_id (db w)
  | HTTPException status detail =>
      select_group group_id user_id (db w) = []
      ∧ status = 404%Z ∧ detail = group_not_found
  end.
Proof.
  unfold get_group. destruct (select_group _ _ _); [done|by left].
Qed.

(** X20. Reading groups follows the membership rows.  [get_group] returns a
    group to a caller exactly when the group has a row and the caller a
    membership row in it, and [get_groups] lists a group for a user in
    exactly that case; what [get_group] returns is the group asked for, a key
    stored for that caller in that group, and the number of the group's
    membership rows, which is also the count that [get_groups] shows. *)
Theorem group_reads_follow_membership group_id user_id w :
  let member := user_id ∈ members_of group_id (db w)
                ∧ group_id ∈ g_group_id <$> chat_groups (db w) in
  ((∃ detail, get_group group_id user_id w = Ok detail) ↔ member)
  ∧ (group_id ∈ gs_group_id <$> get_groups user_id w ↔ member)
  ∧ (∀ detail, get_group group_id user_id w = Ok detail →
       g_group_id (gd_group detail) = group_id
       ∧ gd_member_count detail = member_count group_id (db w)
       ∧ ∃ gm, gm ∈ group_members (db w) ∧ gm_group_id gm = group_id
               ∧ gm_user_id gm = user_id
               ∧ gd_encrypted_group_key detail = gm_encrypted_group_key gm)
  ∧ Forall (λ s, gs_member_count s = member_count (gs_group_id s) (db w))
           (get_groups user_id w).
Proof.
  intros member. unfold member.
  pose proof (get_group_head group_id user_id w) as Hhead.
  split; [|split; [|split]].
  - rewrite elem_of_members_of, list_elem_of_fmap. split.
    + intros [detail Hget]. rewrite Hget in Hhead.
      apply elem_of_select_group in Hhead
        as (g & gm & Hg & Hgm & Hgid & Hgg & Hu & _).
      split; [by exists gm|by exists g].
    + intros [(gm & Hgm & Hgg & Hu) (g & Hgid & Hg)].
      destruct (get_group group_id user_id w) as [detail|] eqn:Hget; [by eauto|].
      destruct Hhead as [Hnil _]. exfalso.
      assert (mkGroupDetail g (gm_encrypted_group_key gm)
                            (member_count group_id (db w))
              ∈ select_group group_id user_id (db w)) as Hrow
        by (apply elem_of_select_group; exists g, gm; done).
      rewrite Hnil in Hrow. by apply not_elem_of_nil in Hrow.
  - rewrite elem_of_members_of, !list_elem_of_fmap. split.
    + intros (s & -> & Hs). apply elem_of_get_groups in Hs
        as (g & gm & Hg & Hgm & Hgg & Hu & ->). simpl.
      split; [exists gm; by rewrite <-Hgg|by exists g].
    + intros [(gm & Hgm & Hgg & Hu) (g & Hgid & Hg)].
      eexists. split; [|apply elem_of_get_groups; exists g, gm;
                        split_and!; try done; congruence].
      done.
  - intros detail Hget. rewrite Hget in Hhead.
    apply elem_of_select_group in Hhead
      as (g & gm & Hg & Hgm & Hgid & Hgg & Hu & ->). simpl.
    split_and!; try done. by exists gm.
  - apply Forall_forall. intros s Hs.
    by apply elem_of_get_groups in Hs as (g & gm & _ & _ & _ & _ & ->).
Qed.

Lemma create_group_chat_groups group user_id group_id w w' r :
  create_group send_json_ok group user_id group_id w = Some (w', r) →
  chat_groups (db w')
  = chat_groups (db w) ++ [mkChatGroup group_id (gc_name group) user_id None].
Proof.
  unfold create_group. intros Hrun.
  destruct (for_each _ _ _) as [v|] eqn:Hloop; simplify_eq/=.
  set (R := λ v v' : World, chat_groups (db v') = chat_groups (db v)).
  assert (Reflexive R) by done.
  assert (Transitive R) by (intros ???; unfold R; congruence).
  eapply (for_each_invariant _ (λ _, True) R) in Hloop as [_ Hloop]; [| |done].
  - rewrite Hloop. simpl. by destruct (gc_encrypted_keys group !! user_id).
  - intros m v v' _ _ Hm. split; [done|]. unfold R.
    destruct (gc_encrypted_keys group !! m); [|by simplify_eq].
    case_decide; [|by simplify_eq].
    by apply send_to_user_cascade, cascade_frame, frame_chat_groups in Hm.
Qed.

(** X11. A created group can be read back.  With a group id used neither in
    [chat_groups] nor in [group_members], every user among the creator and
    the listed members who has an entry in the key map gets from
    [get_group] the new group - its name, its creator - with the key that
    the map holds for that user, and the number of membership rows
    inserted. *)
Theorem created_group_is_readable group user_id group_id w :
  Forall (λ gm, gm_group_id gm ≠ group_id) (group_members (db w)) →
  Forall (λ g, g_group_id g ≠ group_id) (chat_groups (db w)) →
  ∃ w', create_group send_json_ok group user_id group_id w
        = Some (w', Ok group_id)
      ∧ ∀ member key,
          member = user_id ∨ member ∈ gc_member_ids group →
          gc_encrypted_keys group !! member = Some key →
          get_group group_id member w'
          = Ok (mkGroupDetail
                  (mkChatGroup group_id (gc_name group) user_id None) key
                  (length (creator_row group user_id group_id
                           ++ new_member_rows group user_id group_id
                                (gc_member_ids group)))).
Proof.
  intros Hfresh Hnew.
  pose proof (proj1 (Forall_forall _ _) Hfresh) as Hfresh'.
  pose proof (proj1 (Forall_forall _ _) Hnew) as Hnew'.
  clear Hfresh Hnew. rename Hfresh' into Hfresh. rename Hnew' into Hnew.
  destruct (create_group_run send_json_ok group user_id group_id w)
    as (w' & Hrun & Hrows).
  pose proof (create_group_chat_groups _ _ _ _ _ _ Hrun) as Hgroups.
  exists w'. split; [done|]. intros member key Hmember Hkey.
  assert (∀ gm, gm ∈ group_members (db w') → gm_group_id gm = group_id →
            gm ∈ creator_row group user_id group_id
                 ++ new_member_rows group user_id group_id (gc_member_ids group))
    as Hin.
  { intros gm Hgm Hgid. rewrite Hrows in Hgm.
    apply elem_of_app in Hgm as [Hgm|Hgm]; [by apply Hfresh in Hgm|done]. }
  assert (∀ gm, gm ∈ creator_row group user_id group_id
                     ++ new_member_rows group user_id group_id (gc_member_ids group) →
            gm_group_id gm = group_id
            ∧ gc_encrypted_keys group !! gm_user_id gm
              = Some (gm_encrypted_group_key gm)) as Hnewrows.
  { intros gm [Hgm|Hgm]%elem_of_app.
    - unfold creator_row in Hgm.
      destruct (gc_encrypted_keys group !! user_id) eqn:Hk;
        [|by apply not_elem_of_nil in Hgm].
      by apply list_elem_of_singleton in Hgm as ->.
    - apply elem_of_new_member_rows in Hgm as (k & -> & _ & _ & Hk). done. }
  assert (member_count group_id (db w')
          = length (creator_row group user_id group_id
                    ++ new_member_rows group user_id group_id
                         (gc_member_ids group))) as Hcount.
  { unfold member_count. rewrite Hrows, filter_app.
    rewrite filter_none, filter_all; [done| |].
    - apply Forall_forall. intros gm Hgm. by apply Hnewrows.
    - apply Forall_forall. intros gm Hgm. by apply Hfresh. }
  assert (∃ gm, gm ∈ group_members (db w') ∧ gm_group_id gm = group_id
                ∧ gm_user_id gm = member) as (gm0 & Hgm0 & Hgid0 & Hu0).
  { exists (mkGroupMember group_id member key). split; [|done].
    rewrite Hrows. apply elem_of_app. right. apply elem_of_app.
    destruct (decide (member = user_id)) as [->|Hne].
    - left. unfold creator_row. rewrite Hkey. by left.
    - right. apply elem_of_new_member_rows. exists key.
      destruct Hmember; done. }
  pose proof (get_group_head group_id member w') as Hhead.
  destruct (get_group group_id member w') as [detail|] eqn:Hget.
  - apply elem_of_select_group in Hhead
      as (g & gm & Hg & Hgm & Hgid & Hgg & Hu & ->).
    rewrite Hgroups in Hg. apply elem_of_app in Hg as [Hg|Hg];
      [by apply Hnew in Hg|]. apply list_elem_of_singleton in Hg as ->.
    destruct (Hnewrows gm (Hin gm Hgm Hgg)) as [_ Hk].
    rewrite Hu, Hkey in Hk. injection Hk as <-. by rewrite Hcount.
  - destruct Hhead as [Hnil _]. exfalso.
    assert (mkGroupDetail (mkChatGroup group_id (gc_name group) user_id None)
                          (gm_encrypted_group_key gm0)
                          (member_count group_id (db w'))
            ∈ select_group group_id member (db w')) as Hrow.
    { apply elem_of_select_group.
      exists (mkChatGroup group_id (gc_name group) user_id None), gm0.
      split_and!; try done.
      rewrite Hgroups. apply elem_of_app. right. by left. }
    rewrite Hnil in Hrow. by apply not_elem_of_nil in Hrow.
Qed.

(** X12. The fan-out of a group message.  With no user listed twice among
    the group's other members, the poster is never notified of the own
    message; every other member with a live session receives exactly one
    [group_message] event, with the group and the assigned id; a user who is
    no member of the group receives none; and nobody is tried twice. *)
Theorem group_message_fanout group_id message user_id w :
  NoDup (members_except group_id user_id (db w)) →
  let event := group_message group_id (group_messages_lastrowid (db w) + 1) in
  ∃ w' sent,
    send_group_message send_json_ok group_id message user_id w
    = Some (w', Ok (group_messages_lastrowid (db w) + 1)%Z)
    ∧ wire w' = wire w ++ sent
    ∧ attempts user_id event sent = 0
    ∧ (∀ c, c ∈ members_of group_id (db w) → c ≠ user_id →
            live_session send_json_ok (active_connections w) c →
            attempts c event sent = 1 ∧ deliveries c event sent = 1)
    ∧ (∀ c, c ∉ members_of group_id (db w) → attempts c event sent = 0)
    ∧ (∀ c, attempts c event sent ≤ 1).
Proof.
  intros Hnodup event.
  assert (∀ c, c ∈ members_except group_id user_id (db w)
               ↔ c ∈ members_of group_id (db w) ∧ c ≠ user_id) as Hmem.
  { intros c. unfold members_except.
    rewrite elem_of_members_of, list_elem_of_fmap. split.
    - intros (gm & -> & [[??]?]%list_elem_of_filter). eauto.
    - intros [(gm & ? & ? & <-) ?]. exists gm. split; [done|].
      by apply list_elem_of_filter. }
  destruct (send_group_message_run send_json_ok group_id message user_id w)
    as (w' & Hrun & _).
  exists w'. unfold send_group_message in Hrun |- *.
  destruct (for_each _ _ _) as [v|] eqn:Hloop; simplify_eq/=.
  apply (broadcast_counts send_json_ok) in Hloop
    as (sent & Hwire & Hout & _ & Hmost & Hin & _);
    [|apply send_to_user_spec|exact Hnodup|by intros x].
  exists sent. split; [done|]. split; [done|].
  split; [|split; [|split]].
  - apply Hout. rewrite Hmem. tauto.
  - intros c Hc Hne Hlive. apply Hin; [|done]. by apply Hmem.
  - intros c Hc. apply Hout. rewrite Hmem. tauto.
  - done.
Qed.

End group_endpoints.

(** ** The conversation list *)

Section conversation_list.
Variable send_json_ok : nat → WebSocket → bool.
Variable isoformat : Z → string.

Lemma sql_max_spec ts :
  match sql_max ts with
  | None => ts = []
  | Some t => t ∈ ts ∧ Forall (λ x, (x ≤ t)%Z) ts
  end.
Proof.
  induction ts as [|x ts IH]; [done|]. simpl.
  destruct (sql_max ts) as [t|].
  - destruct IH as [Hin Hle]. split.
    + destruct (Z.max_spec x t) as [[_ ->]|[_ ->]]; [by right|by left].
    + constructor; [lia|]. eapply Forall_impl; [done|]. intros y Hy. simpl in *. lia.
  - subst ts. split; [by left|]. by repeat constructor.
Qed.

Lemma sql_max_bounded ts t :
  t ∈ ts → Forall (λ x, (x ≤ t)%Z) ts → sql_max ts = Some t.
Proof.
  intros Hin Hle. pose proof (sql_max_spec ts) as Hmax.
  destruct (sql_max ts) as [t'|]; [|subst; by apply not_elem_of_nil in Hin].
  destruct Hmax as [Hin' Hle']. rewrite Forall_forall in Hle, Hle'.
  apply Hle in Hin'. apply Hle' in Hin. f_equal. lia.
Qed.

Global Instance null_le_trans : Transitive null_le.
Proof. intros [x|] [y|] [z|]; simpl; try done. lia. Qed.

Global Instance null_le_total : Total null_le.
Proof. intros [x|] [y|]; simpl; auto. lia. Qed.

Global Instance latest_first_trans : Transitive latest_first.
Proof. intros x y z Hxy Hyz. unfold latest_first in *. by etransitivity. Qed.

Global Instance latest_first_total : Total latest_first.
Proof. intros x y. unfold latest_first. apply (total null_le). Qed.

Lemma elem_of_left_join_nickname nicknames user_id ms u row :
  row ∈ left_join_nickname nicknames user_id ms u →
  c_user_id row = u_user_id u
  ∧ c_unread_count row = unread_count (u_user_id u) user_id ms
  ∧ c_last_message_at row = last_message_at user_id (u_user_id u) ms.
Proof.
  unfold left_join_nickname. destruct (filter _ nicknames) as [|n0 ns].
  - by intros ->%list_elem_of_singleton.
  - by intros (n & -> & _)%list_elem_of_fmap.
Qed.

Lemma left_join_nickname_nonempty nicknames user_id ms u :
  ∃ row, row ∈ left_join_nickname nicknames user_id ms u.
Proof.
  unfold left_join_nickname. destruct (filter _ nicknames); eexists; by left.
Qed.

Lemma elem_of_select_conversations nicknames user_id d row :
  row ∈ select_conversations nicknames user_id d
  ↔ c_user_id row ∈ contacts user_id (messages d)
    ∧ ∃ u, u ∈ users d
           ∧ row ∈ left_join_nickname nicknames user_id (messages d) u.
Proof.
  unfold select_conversations.
  rewrite merge_sort_Permutation, list_elem_of_filter, list_elem_of_bind.
  split; intros [? (u & ? & ?)]; eauto.
Qed.

Lemma conversation_ids nicknames user_id d c :
  c ∈ c_user_id <$> select_conversations nicknames user_id d
  ↔ counterpart user_id c (messages d) ∧ registered d c.
Proof.
  rewrite list_elem_of_fmap. unfold registered. rewrite list_elem_of_fmap. split.
  - intros (row & -> & Hrow).
    apply elem_of_select_conversations in Hrow as [Hc (u & Hu & Hrow)].
    apply elem_of_left_join_nickname in Hrow as (Hid & _).
    split; [by apply elem_of_contacts|]. by exists u.
  - intros [Hc (u & -> & Hu)].
    destruct (left_join_nickname_nonempty nicknames user_id (messages d) u)
      as [row Hrow].
    pose proof (elem_of_left_join_nickname _ _ _ _ _ Hrow) as (Hid & _).
    exists row. split; [done|]. apply elem_of_select_conversations.
    split; [|by eauto]. rewrite Hid. by apply elem_of_contacts.
Qed.

(** X9. The conversation list of a user has a row for exactly those users
    who have a row in [users] and are the other end of some direct message
    of the user.  Each row counts the unread messages from that user, and
    carries the creation time of the latest message between the two - never
    [NULL]; the rows come latest first. *)
Theorem conversation_list_summary nicknames user_id w :
  let ms := messages (db w) in
  let rows := fst <$> get_conversations isoformat nicknames user_id w in
  (∀ c, c ∈ c_user_id <$> rows
        ↔ counterpart user_id c ms ∧ registered (db w) c)
  ∧ Forall (λ row,
              c_unread_count row = unread_count (c_user_id row) user_id ms
              ∧ ∃ t, c_last_message_at row = Some t
                     ∧ (∃ m, m ∈ ms ∧ between user_id (c_user_id row) m
                             ∧ m_created_at m = t)
                     ∧ Forall (λ m, between user_id (c_user_id row) m →
                                    (m_created_at m ≤ t)%Z) ms) rows
  ∧ StronglySorted (λ x y, null_le y x) (c_last_message_at <$> rows).
Proof.
  intros ms rows.
  assert (rows = select_conversations nicknames user_id (db w)) as ->.
  { unfold rows, get_conversations. rewrite <-list_fmap_compose.
    apply list_fmap_id. }
  split; [|split].
  - intros c. apply conversation_ids.
  - apply Forall_forall. intros row Hrow.
    apply elem_of_select_conversations in Hrow as [Hc (u & Hu & Hrow)].
    apply elem_of_left_join_nickname in Hrow as (Hid & Hunread & Hlast).
    rewrite Hid. split; [done|]. rewrite Hlast. unfold last_message_at.
    pose proof (sql_max_spec (m_created_at <$>
                  filter (between user_id (u_user_id u)) ms)) as Hmax.
    destruct (sql_max _) as [t|].
    + destruct Hmax as [Hin Hle]. exists t. split; [done|]. split.
      * apply list_elem_of_fmap in Hin as (m & -> & Hm).
        apply list_elem_of_filter in Hm as [Hab Hm]. by exists m.
      * apply Forall_forall. intros m Hm Hab.
        rewrite Forall_forall in Hle. apply Hle.
        apply list_elem_of_fmap_2. by apply list_elem_of_filter.
    + exfalso. rewrite Hid in Hc. apply elem_of_contacts in Hc as (m & Hm & Hab).
      apply fmap_nil_inv in Hmax.
      apply (filter_nil_not_elem_of _ _ m Hmax); [|done].
      unfold between. tauto.
  - apply (StronglySorted_fmap _ latest_first); [done|].
    apply StronglySorted_merge_sort; apply _.
Qed.

Lemma unread_count_mark_read c s me ms :
  unread_count c me (mark_read s me ms)
  = if decide (c = s) then 0 else unread_count c me ms.
Proof.
  unfold unread_count, mark_read, unread_from.
  induction ms as [|m ms IH]; [by case_decide|].
  rewrite fmap_cons, !filter_cons.
  destruct (decide (m_sender_id m = s ∧ m_recipient_id m = me ∧ m_is_read m = false))
    as [(Hs & Hr & Hu)|Hno]; simpl.
  - rewrite decide_False by (by intros (_ & _ & ?)).
    destruct (decide (c = s)) as [->|Hne]; [done|].
    rewrite decide_False by (intros (? & _); congruence). done.
  - destruct (decide (c = s)) as [->|Hne].
    + rewrite decide_False by done. done.
    + case_decide; simpl; by rewrite IH.
Qed.

Lemma counterpart_mark_read me c s r ms :
  counterpart me c (mark_read s r ms) ↔ counterpart me c ms.
Proof.
  unfold counterpart, mark_read. split.
  - intros (m & (m0 & -> & Hm0)%list_elem_of_fmap & Hm). exists m0.
    split; [done|]. by case_decide.
  - intros (m & Hm & Hc). eexists. split; [by apply list_elem_of_fmap_2|].
    simpl. by case_decide.
Qed.

(** X10. After the [read] event of a session for a sender, the conversation
    list of the session's user shows no unread message from that sender; the
    unread counts of the other conversations are what they were, and the
    list has rows for the same users as before. *)
Theorem read_clears_unread nicknames sender_id user_id w :
  sender_id ≠ "" →
  ∃ w', on_read send_json_ok (Some sender_id) user_id w = Some w'
      ∧ Forall (λ row,
                  c_unread_count row
                  = if decide (c_user_id row = sender_id) then 0
                    else unread_count (c_user_id row) user_id (messages (db w)))
               (fst <$> get_conversations isoformat nicknames user_id w')
      ∧ ∀ c, c ∈ (c_user_id ∘ fst)
                   <$> get_conversations isoformat nicknames user_id w'
             ↔ c ∈ (c_user_id ∘ fst)
                     <$> get_conversations isoformat nicknames user_id w.
Proof.
  intros Hne. unfold on_read. simpl. rewrite decide_False by done.
  set (v := with_db (markRead sender_id user_id (db w)) w).
  destruct (send_to_user_total send_json_ok sender_id (messages_read user_id) v)
    as [w' Hw'].
  exists w'. split; [done|].
  apply send_to_user_cascade, cascade_frame in Hw'.
  pose proof (frame_messages _ _ _ Hw') as Hms. simpl in Hms.
  destruct Hw' as [_ P _ _ _ _ _]. simpl in P.
  assert (∀ x, fst <$> get_conversations isoformat nicknames user_id x
               = select_conversations nicknames user_id (db x)) as Hfst.
  { intros x. unfold get_conversations. rewrite <-list_fmap_compose.
    apply list_fmap_id. }
  split.
  - rewrite Hfst. apply Forall_forall. intros row Hrow.
    apply elem_of_select_conversations in Hrow as [_ (u & _ & Hrow)].
    apply elem_of_left_join_nickname in Hrow as (-> & -> & _).
    rewrite Hms. apply unread_count_mark_read.
  - intros c. rewrite !list_fmap_compose, !Hfst, !conversation_ids.
    rewrite Hms, counterpart_mark_read. unfold registered.
    assert (u_user_id <$> users (db w') = u_user_id <$> users (db w)) as ->; [|done].
    apply (f_equal (fmap (λ p, p.1.1.1.1))) in P.
    rewrite <-!list_fmap_compose in P. done.
Qed.

(** X19. A message sent by a user with a row in [users] puts that user in
    the recipient's conversation list, with one unread message more than
    before and no activity later than the new message's creation. *)
Theorem send_counts_as_unread nicknames message sender_id w :
  (mc_recipient_id message, sender_id) ∉ blocked_users (db w) →
  registered (db w) sender_id →
  Forall (λ m, (m_created_at m ≤ now w)%Z) (messages (db w)) →
  ∃ w' row,
    send_message send_json_ok message sender_id w
    = Some (w', Ok (messages_lastrowid (db w) + 1)%Z)
    ∧ row ∈ fst <$> get_conversations isoformat nicknames
                      (mc_recipient_id message) w'
    ∧ c_user_id row = sender_id
    ∧ c_unread_count row
      = S (unread_count sender_id (mc_recipient_id message) (messages (db w)))
    ∧ c_last_message_at row = Some (now w).
Proof.
  intros Hnot Hreg Hpast.
  destruct (send_message_unblocked_run send_json_ok message sender_id w Hnot)
    as (w' & Hrun & Hrows).
  assert (profile <$> users (db w') = profile <$> users (db w)) as P.
  { rewrite (send_message_unblocked _ _ _ _ Hnot) in Hrun.
    destruct (send_to_user _ _ _ _) as [v|] eqn:Hv; simplify_eq/=.
    apply send_to_user_cascade, cascade_frame in Hv. by destruct Hv. }
  assert (sender_id ∈ c_user_id
            <$> select_conversations nicknames (mc_recipient_id message) (db w'))
    as Hin.
  { apply conversation_ids. split.
    - exists (sent_row message sender_id w). split.
      + rewrite Hrows. apply elem_of_app. right. by left.
      + by right.
    - unfold registered in *.
      apply (f_equal (fmap (λ p, p.1.1.1.1))) in P.
      rewrite <-!list_fmap_compose in P.
      change (u_user_id <$> users (db w') = u_user_id <$> users (db w)) in P.
      by rewrite P. }
  apply list_elem_of_fmap in Hin as (row & Hid & Hrow).
  exists w', row. split; [done|]. split.
  { unfold get_conversations. rewrite <-list_fmap_compose.
    by rewrite list_fmap_id. }
  split; [done|].
  apply elem_of_select_conversations in Hrow as [_ (u & _ & Hrow)].
  apply elem_of_left_join_nickname in Hrow as (Hu & -> & ->).
  rewrite <-Hu, <-Hid, Hrows. split.
  - unfold unread_count. rewrite filter_app, length_app.
    rewrite filter_cons_True by done. simpl. lia.
  - unfold last_message_at. apply sql_max_bounded.
    + apply list_elem_of_fmap. exists (sent_row message sender_id w).
      split; [done|]. apply list_elem_of_filter. split; [by right|].
      apply elem_of_app. right. by left.
    + apply Forall_fmap, Forall_forall. intros m [_ Hm]%list_elem_of_filter.
      apply elem_of_app in Hm as [Hm|Hm].
      * rewrite Forall_forall in Hpast. by apply Hpast.
      * apply list_elem_of_singleton in Hm as ->. simpl. lia.
Qed.

End conversation_list.

(** ** The key of [users] *)

Section user_key.
Variable send_json_ok : nat → WebSocket → bool.

Lemma ids_of_profiles (us us' : list User) :
  profile <$> us' = profile <$> us → u_user_id <$> us' = u_user_id <$> us.
Proof.
  intros P. apply (f_equal (fmap (λ p, p.1.1.1.1))) in P.
  by rewrite <-!list_fmap_compose in P.
Qed.

Lemma cascade_user_ids w w' :
  cascade send_json_ok w w' →
  u_user_id <$> users (db w') = u_user_id <$> users (db w).
Proof. intros [_ P _ _ _ _ _]%cascade_frame. by apply ids_of_profiles. Qed.

Lemma update_status_user_ids flag user_id w :
  u_user_id <$> users (db (update_status flag user_id w))
  = u_user_id <$> users (db w).
Proof. simpl. apply ids_of_profiles, set_online_profile. Qed.

(** X16. The user ids stay distinct: a store in which no two rows of [users]
    share an id is still one after a registration (accepted or rejected), a
    profile update, a connection, a disconnection and a message send; and in
    such a store [get_user] returns, for every row, the public columns of
    that very row. *)
Theorem user_ids_stay_distinct w :
  users_unique (db w) →
  (∀ user, users_unique (db (register_user user w).1))
  ∧ (∀ user_id update, users_unique (db (update_user user_id update w)))
  ∧ (∀ websocket user_id w',
       connect send_json_ok websocket user_id w = Some w' →
       users_unique (db w'))
  ∧ (∀ user_id w',
       disconnect send_json_ok user_id w = Some w' → users_unique (db w'))
  ∧ (∀ message sender_id w' r,
       send_message send_json_ok message sender_id w = Some (w', r) →
       users_unique (db w'))
  ∧ (∀ u, u ∈ users (db w) →
       get_user (u_user_id u) w
       = Ok (mkUserPublic (u_user_id u) (u_public_key u) (u_display_name u)
                          (u_avatar u))).
Proof.
  intros Hids. unfold users_unique in *.
  split; [|split; [|split; [|split; [|split]]]].
  - intros user. unfold register_user.
    destruct (select_user (ur_user_id user) (db w)) eqn:Hsel; [|done]. simpl.
    apply select_user_nil in Hsel. rewrite fmap_app. apply NoDup_app.
    split; [done|]. split; [|apply NoDup_singleton].
    intros x Hx ->%list_elem_of_singleton. done.
  - intros user_id update. unfold update_user.
    destruct (uu_display_name update), (uu_avatar update); try done; simpl;
      rewrite <-list_fmap_compose;
      (erewrite list_fmap_ext; [exact Hids|]);
      intros i u _; simpl; by case_decide.
  - intros websocket user_id w' Hrun.
    apply connect_cascade, cascade_user_ids in Hrun.
    by rewrite Hrun, update_status_user_ids.
  - intros user_id w' Hrun.
    apply disconnect_cascade, cascade_user_ids in Hrun.
    rewrite Hrun. unfold go_offline. by rewrite update_status_user_ids.
  - intros message sender_id w' r. unfold send_message.
    destruct (select_blocked _ _ _); [|by intros; simplify_eq].
    destruct (send_to_user _ _ _ _) as [v|] eqn:Hv; intros; simplify_eq/=.
    apply send_to_user_cascade, cascade_user_ids in Hv. by rewrite Hv.
  - intros u Hu. unfold get_user.
    destruct (select_user (u_user_id u) (db w)) as [|u0 us] eqn:Hsel.
    { exfalso. by apply (filter_nil_not_elem_of _ _ u Hsel). }
    assert (u0 ∈ select_user (u_user_id u) (db w)) as Hu0
      by (rewrite Hsel; by left).
    apply list_elem_of_filter in Hu0 as [Hid Hu0].
    assert (u0 = u) as -> by by eapply (NoDup_fmap_elem_inj u_user_id).
    done.
Qed.

End user_key.

(** ** The further properties on the sample worlds *)

Lemma sent_message_is_listed_witness :
  (("bob", "alice") ∉ blocked_users (db sample_world))
  ∧ ∃ w' message_id m,
      send_message always_ok good_reply "alice" sample_world
      = Some (w', Ok message_id)
      ∧ m ∈ (r_message ∘ fst) <$> get_messages sample_isoformat "bob" "alice" w'
      ∧ m_id m = message_id.
Proof.
  assert (("bob", "alice") ∉ blocked_users (db sample_world)) as Hnot
    by (by apply (bool_decide_unpack _)).
  split; [exact Hnot|].
  destruct (sent_message_is_listed always_ok sample_isoformat good_reply "alice"
              sample_world Hnot) as (w' & i & m & Hrun & Hlisted & _ & Hid & _).
  exists w', i, m. split; [exact Hrun|]. split; [exact Hlisted|exact Hid].
Defined.

Lemma deleted_reply_target_blanks_witness :
  NoDup (m_id <$> messages (db cross_reply_world))
  ∧ first_hello ∈ messages (db cross_reply_world)
  ∧ between "alice" "bob" first_hello
  ∧ m_reply_to_id cross_reply = Some (m_id first_hello)
  ∧ Forall (λ row, r_message row = cross_reply →
                   r_reply_encrypted_content row = None
                   ∧ r_reply_encrypted_for_sender row = None
                   ∧ r_reply_sender_id row = None)
           (fst <$> get_messages sample_isoformat "carol" "alice"
                      (delete_messages "alice" "bob" cross_reply_world)).
Proof.
  assert (NoDup (m_id <$> messages (db cross_reply_world))) as Hids
    by (by apply (bool_decide_unpack _)).
  assert (first_hello ∈ messages (db cross_reply_world)) as Hin
    by (apply elem_of_app; left; apply elem_of_cons; by left).
  assert (between "alice" "bob" first_hello) as Hab
    by (left; split; reflexivity).
  assert (m_reply_to_id cross_reply = Some (m_id first_hello)) as Hreply
    by reflexivity.
  split; [exact Hids|]. split; [exact Hin|]. split; [exact Hab|].
  split; [exact Hreply|].
  exact (deleted_reply_target_blanks sample_isoformat "alice" "bob" "carol"
           "alice" cross_reply_world first_hello cross_reply Hids Hin Hab Hreply).
Defined.

Lemma registered_user_is_found_witness :
  ¬ registered (db sample_world) "dave"
  ∧ ∃ w' found,
      register_user dave_registers sample_world = (w', Ok "dave")
      ∧ get_user "dave" w' = Ok found
      ∧ up_public_key found = "pkD".
Proof.
  assert (¬ registered (db sample_world) "dave") as Hnew
    by (unfold registered; by apply (bool_decide_unpack _)).
  split; [exact Hnew|].
  destruct (registered_user_is_found dave_registers sample_world Hnew)
    as (w' & found & Hrun & Hget & _ & Hkey & _).
  exists w', found. split; [exact Hrun|]. split; [exact Hget|exact Hkey].
Defined.

Lemma second_registration_rejected_witness :
  ur_user_id dave_again = ur_user_id dave_registers
  ∧ register_user dave_again (register_user dave_registers sample_world).1
    = ((register_user dave_registers sample_world).1,
       HTTPException 400 user_already_exists).
Proof.
  split; [reflexivity|].
  exact (proj1 (proj2 (second_registration_rejected dave_registers dave_again
                         sample_world eq_refl))).
Defined.

Lemma read_clears_unread_witness :
  "bob" ≠ ""
  ∧ ∃ w', on_read always_ok (Some "bob") "alice" sample_world = Some w'
        ∧ Forall (λ row, c_user_id row = "bob" → c_unread_count row = 0)
            (fst <$> get_conversations sample_isoformat sample_nicknames
                       "alice" w').
Proof.
  assert ("bob" ≠ "") as Hne by (by apply (bool_decide_unpack _)).
  split; [exact Hne|].
  destruct (read_clears_unread always_ok sample_isoformat sample_nicknames
              "bob" "alice" sample_world Hne) as (w' & Hrun & Hrows & _).
  exists w'. split; [exact Hrun|].
  eapply Forall_impl; [exact Hrows|].
  intros row Hrow Hbob. rewrite Hrow. by apply decide_True.
Defined.

Lemma created_group_is_readable_witness :
  Forall (λ gm, gm_group_id gm ≠ "g2") (group_members (db sample_world))
  ∧ Forall (λ g, g_group_id g ≠ "g2") (chat_groups (db sample_world))
  ∧ ∃ w', create_group always_ok sample_group "alice" "g2" sample_world
          = Some (w', Ok "g2")
        ∧ ∃ detail, get_group "g2" "alice" w' = Ok detail.
Proof.
  assert (Forall (λ gm, gm_group_id gm ≠ "g2") (group_members (db sample_world)))
    as Hfresh by (by apply (bool_decide_unpack _)).
  assert (Forall (λ g, g_group_id g ≠ "g2") (chat_groups (db sample_world)))
    as Hnew by (by apply (bool_decide_unpack _)).
  split; [exact Hfresh|]. split; [exact Hnew|].
  destruct (created_group_is_readable always_ok sample_group "alice" "g2"
              sample_world Hfresh Hnew) as (w' & Hrun & Hget).
  exists w'. split; [exact Hrun|].
  destruct (gc_encrypted_keys sample_group !! "alice") as [key|] eqn:Hkey;
    [|vm_compute in Hkey; discriminate].
  eexists. apply (Hget "alice" key); [by left|exact Hkey].
Defined.

Lemma group_message_fanout_witness :
  NoDup (members_except "g1" "alice" (db two_member_world))
  ∧ ∃ w' sent,
      send_group_message always_ok "g1" (mkGroupMessageCreate "ct") "alice"
        two_member_world
      = Some (w', Ok (group_messages_lastrowid (db two_member_world) + 1)%Z)
      ∧ wire w' = wire two_member_world ++ sent
      ∧ attempts "alice"
          (group_message "g1"
             (group_messages_lastrowid (db two_member_world) + 1)) sent = 0.
Proof.
  assert (NoDup (members_except "g1" "alice" (db two_member_world))) as Hnodup
    by (by apply (bool_decide_unpack _)).
  split; [exact Hnodup|].
  destruct (group_message_fanout always_ok "g1" (mkGroupMessageCreate "ct")
              "alice" two_member_world Hnodup)
    as (w' & sent & Hrun & Hwire & Hself & _).
  exists w', sent. split; [exact Hrun|]. split; [exact Hwire|exact Hself].
Defined.

Lemma send_pushes_notification_only_witness :
  (("bob", "alice") ∉ blocked_users (db sample_world))
  ∧ ∃ w' sent,
      send_message always_ok good_reply "alice" sample_world
      = Some (w', Ok (messages_lastrowid (db sample_world) + 1)%Z)
      ∧ wire w' = wire sample_world ++ sent
      ∧ attempts "bob"
          (new_message (messages_lastrowid (db sample_world) + 1) "alice"
                       (mc_encrypted_content good_reply)) sent = 1.
Proof.
  assert (("bob", "alice") ∉ blocked_users (db sample_world)) as Hnot
    by (by apply (bool_decide_unpack _)).
  split; [exact Hnot|].
  destruct (send_pushes_notification_only always_ok good_reply "alice"
              sample_world Hnot) as (w' & sent & Hrun & Hwire & _ & Hone & _).
  exists w', sent. split; [exact Hrun|]. split; [exact Hwire|exact Hone].
Defined.

Lemma connect_marks_online_witness :
  reliable always_ok 3
  ∧ ∃ w', connect always_ok 3 "carol" sample_world = Some w'
        ∧ active_connections w' !! "carol" = Some 3.
Proof.
  assert (reliable always_ok 3) as Hrel by (intros n; reflexivity).
  split; [exact Hrel|].
  destruct (connect_marks_online always_ok 3 "carol" sample_world Hrel)
    as (w' & Hrun & Hreg & _).
  exists w'. split; [exact Hrun|exact Hreg].
Defined.

Lemma send_counts_as_unread_witness :
  (("bob", "alice") ∉ blocked_users (db sample_world))
  ∧ registered (db sample_world) "alice"
  ∧ Forall (λ m, (m_created_at m ≤ now sample_world)%Z)
           (messages (db sample_world))
  ∧ ∃ w' row,
      send_message always_ok good_reply "alice" sample_world
      = Some (w', Ok (messages_lastrowid (db sample_world) + 1)%Z)
      ∧ row ∈ fst <$> get_conversations sample_isoformat sample_nicknames "bob" w'
      ∧ c_user_id row = "alice"
      ∧ c_last_message_at row = Some (now sample_world).
Proof.
  assert (("bob", "alice") ∉ blocked_users (db sample_world)) as Hnot
    by (by apply (bool_decide_unpack _)).
  assert (registered (db sample_world) "alice") as Hreg
    by (unfold registered; by apply (bool_decide_unpack _)).
  assert (Forall (λ m, (m_created_at m ≤ now sample_world)%Z)
                 (messages (db sample_world))) as Hpast
    by (by apply (bool_decide_unpack _)).
  split; [exact Hnot|]. split; [exact Hreg|]. split; [exact Hpast|].
  destruct (send_counts_as_unread always_ok sample_isoformat sample_nicknames
              good_reply "alice" sample_world Hnot Hreg Hpast)
    as (w' & row & Hrun & Hrow & Hid & _ & Hlast).
  exists w', row. split; [exact Hrun|]. split; [exact Hrow|].
  split; [exact Hid|exact Hlast].
Defined.

Lemma user_ids_stay_distinct_witness :
  users_unique (db sample_world)
  ∧ users_unique (db (register_user dave_registers sample_world).1)
  ∧ get_user (u_user_id bob) sample_world
    = Ok (mkUserPublic (u_user_id bob) (u_public_key bob) (u_display_name bob)
                       (u_avatar bob)).
Proof.
  assert (users_unique (db sample_world)) as Hids
    by (unfold users_unique; by apply (bool_decide_unpack _)).
  split; [exact Hids|].
  destruct (user_ids_stay_distinct always_ok sample_world Hids)
    as (Hreg & _ & _ & _ & _ & Hget).
  split; [apply Hreg|]. apply (Hget bob).
  apply elem_of_cons; right; apply elem_of_cons; by left.
Defined.
